(** * generate-icons.py: the PWA icon generator, embedded and verified

    The script draws, for each of eight pixel sizes, a square RGB canvas with
    a border and the two letters "IM" (shadow first, foreground second), and
    saves it as a PNG under [images/icons/].

    The embedding is shallow.  Python's effects are explicit: a computation is
    a function from the world (file system and standard output) to a result
    (an exception or a value) and the world it leaves behind.  The Pillow and
    [os] calls the script makes are modelled by the small library below; the
    two functions of the script, [create_icon] and [main], are transcribed
    line by line on top of it. *)

From Stdlib Require Import ZArith Lia Ascii String.
From stdpp Require Import base strings gmap pretty list.

Local Open Scope string_scope.
Local Open Scope Z_scope.

(** ** Python: exceptions, the world, computations *)

Inductive Exception :=
  | ValueError
  | KeyError
  | RecursionError
  | MemoryError
  | KeyboardInterrupt
  | OSError
  | FileNotFoundError
  | FileExistsError
  | IsADirectoryError
  | NotADirectoryError.

(** [except OSError] also catches the subclasses of [OSError]. *)
Definition is_OSError (e : Exception) : bool :=
  match e with
  | OSError | FileNotFoundError | FileExistsError
  | IsADirectoryError | NotADirectoryError => true
  | _ => false
  end.

(** The part of the machine the script can touch: the directories and the
    regular files (by name, as reached from the working directory) and what
    has been printed, one entry per call of [print]. *)
Record World := mkWorld {
  fs_dirs : gset string;
  fs_files : gmap string (list Byte.byte);
  stdout : list string
}.

Definition Py (A : Type) : Type := World → (Exception + A) * World.

#[export] Instance Py_ret : MRet Py := λ A a w, (inr a, w).

#[export] Instance Py_bind : MBind Py := λ A B f m w,
  match m w with
  | (inr a, w') => f a w'
  | (inl e, w') => (inl e, w')
  end.

Definition raise {A} (e : Exception) : Py A := λ w, (inl e, w).

(** [try: body  except: handler]; the handler sees the exception, and the
    world as the body left it. *)
Definition try_except {A} (body : Py A) (handler : Exception → Py A) : Py A :=
  λ w, match body w with
       | (inl e, w') => handler e w'
       | r => r
       end.

(** [for x in xs: body] *)
Fixpoint for_each {A} (xs : list A) (body : A → Py unit) : Py unit :=
  match xs with
  | [] => mret tt
  | x :: xs' => body x;; for_each xs' body
  end.

Definition print (s : string) : Py unit :=
  λ w, (inr tt, mkWorld (fs_dirs w) (fs_files w) (stdout w ++ [s])).

(** ** os.path and os *)

(** [p.rfind('/') + 1] as a cut: the part up to and including the last slash,
    and the rest; [None] when [p] has no slash. *)
Fixpoint cut_last_slash (p : string) : option (string * string) :=
  match p with
  | "" => None
  | String c p' =>
      match cut_last_slash p' with
      | Some (h, t) => Some (String c h, t)
      | None => if Ascii.eqb c "/"%char then Some ("/", p') else None
      end
  end.

(** [s.rstrip('/')] *)
Fixpoint rstrip_slash (s : string) : string :=
  match s with
  | "" => ""
  | String c s' =>
      match rstrip_slash s' with
      | "" => if Ascii.eqb c "/"%char then "" else String c ""
      | r => String c r
      end
  end.

(** [posixpath.split]: the head keeps its slashes only when it is nothing
    but slashes. *)
Definition os_path_split (p : string) : string * string :=
  match cut_last_slash p with
  | None => ("", p)
  | Some (head, tail) =>
      (match rstrip_slash head with "" => head | h => h end, tail)
  end.

Definition os_path_dirname (p : string) : string := (os_path_split p).1.

Definition nonempty (s : string) : bool :=
  match s with "" => false | _ => true end.

(** *** Names in the file system

    The directories and files of the world are kept under canonical names,
    as the kernel reaches them from the working directory: [a/b] below it,
    the empty name for the working directory itself, [..] and [../..] above
    it, [/a/b] from the root [/].  A path the script passes may be written
    otherwise ([./a], [a//b], [a/../b], [a/]); the operations below resolve
    it first.  In a file system the ancestors of every entry are
    directories, and there the resolution is the kernel's walk from left to
    right.  A path is the sequence of its bytes; links, permissions, limits
    on the length of names and the space left on the disk are not in the
    model. *)

(** Python passes no path with a NUL byte to the kernel. *)
Fixpoint has_nul (p : string) : bool :=
  match p with
  | "" => false
  | String c p' => Ascii.eqb c "000"%char || has_nul p'
  end.

(** The components of a path, between its slashes. *)
Fixpoint split_slash (p : string) : list string :=
  match p with
  | "" => [""]
  | String c p' =>
      if Ascii.eqb c "/"%char then "" :: split_slash p'
      else match split_slash p' with
           | s :: l => String c s :: l
           | [] => [String c ""]
           end
  end.

(** Runs of slashes count as one: the components that are names. *)
Definition names (p : string) : list string :=
  List.filter nonempty (split_slash p).

(** Where the walk starts: the root for an absolute path, the working
    directory otherwise. *)
Definition start_of (p : string) : string :=
  match p with
  | String c _ => if Ascii.eqb c "/"%char then "/" else ""
  | "" => ""
  end.

Definition ends_with_slash (p : string) : bool :=
  match last (split_slash p) with
  | Some "" => nonempty p
  | _ => false
  end.

Definition path_join (cur name : string) : string :=
  if String.eqb cur "" then name
  else if String.eqb cur "/" then "/" +:+ name
  else cur +:+ "/" +:+ name.

(** A name that only climbs: [..], [../..], ... *)
Definition up_only (name : string) : bool :=
  String.eqb (os_path_split name).2 "..".

Definition path_parent (cur : string) : string :=
  if String.eqb cur "" then ".."
  else if String.eqb cur "/" then "/"
  else if up_only cur then cur +:+ "/.."
  else os_path_dirname cur.

(** The directories that are always there: the working directory, the root,
    and what is above the working directory. *)
Definition fixed_dir (name : string) : bool :=
  String.eqb name "" || String.eqb name "/" || up_only name.

Definition is_dir (w : World) (name : string) : bool :=
  fixed_dir name || bool_decide (name ∈ fs_dirs w).

Inductive Node := IsDir | IsFile | IsAbsent.

Definition node_at (w : World) (name : string) : Node :=
  if is_dir w name then IsDir
  else if bool_decide (name ∈ dom (fs_files w)) then IsFile
  else IsAbsent.

(** Why a name that is no directory cannot be walked through: the first of
    its components, from the top, that is no directory decides. *)
Fixpoint blocked_at (w : World) (cur : string) (comps : list string) : Exception :=
  match comps with
  | [] => FileNotFoundError
  | c :: comps' =>
      match node_at w (path_join cur c) with
      | IsDir => blocked_at w (path_join cur c) comps'
      | IsFile => NotADirectoryError
      | IsAbsent => FileNotFoundError
      end
  end.

(** What the kernel answers when it has to pass through [name]. *)
Definition dir_error (w : World) (name : string) : option Exception :=
  if is_dir w name then None
  else Some (blocked_at w (start_of name) (names name)).

Definition is_dots (c : string) : bool :=
  String.eqb c "." || String.eqb c "..".

(** The canonical name the components lead to from [cur]; [.] and [..] are
    looked up in a directory, which has to be there. *)
Fixpoint canonical (w : World) (cur : string) (comps : list string)
    : Exception + string :=
  match comps with
  | [] => inr cur
  | c :: comps' =>
      if is_dots c then
        match dir_error w cur with
        | Some e => inl e
        | None =>
            canonical w (if String.eqb c "." then cur else path_parent cur) comps'
        end
      else canonical w (path_join cur c) comps'
  end.

(** What a path names: a directory outright (the path is [/], or ends in [.]
    or [..]), or the entry [entry] of the directory [dir], with or without
    slashes after it. *)
Inductive Resolved :=
  | AtDir (name : string)
  | AtEntry (dir entry : string) (slash : bool).

Definition resolve (w : World) (path : string) : Exception + Resolved :=
  if has_nul path then inl ValueError
  else if String.eqb path "" then inl FileNotFoundError
  else
    match last (names path) with
    | None => inr (AtDir (start_of path))
    | Some c =>
        if is_dots c then
          match canonical w (start_of path) (names path) with
          | inl e => inl e
          | inr name => inr (AtDir name)
          end
        else
          match canonical w (start_of path) (removelast (names path)) with
          | inl e => inl e
          | inr cur => inr (AtEntry cur c (ends_with_slash path))
          end
    end.

(** [os.stat]: what is at the path. *)
Definition os_stat (w : World) (path : string) : Exception + Node :=
  match resolve w path with
  | inl e => inl e
  | inr (AtDir _) => inr IsDir
  | inr (AtEntry cur c slash) =>
      match node_at w (path_join cur c) with
      | IsDir => inr IsDir
      | IsFile => if slash then inl NotADirectoryError else inr IsFile
      | IsAbsent =>
          inl (match dir_error w cur with Some e => e | None => FileNotFoundError end)
      end
  end.

Definition os_path_isdir (p : string) : Py bool :=
  λ w, (inr (match os_stat w p with inr IsDir => true | _ => false end), w).

Definition os_path_exists (p : string) : Py bool :=
  λ w, (inr (match os_stat w p with inr _ => true | inl _ => false end), w).

Definition os_mkdir (path : string) : Py unit :=
  λ w,
    match resolve w path with
    | inl e => (inl e, w)
    | inr (AtDir _) => (inl FileExistsError, w)
    | inr (AtEntry cur c _) =>
        match node_at w (path_join cur c) with
        | IsAbsent =>
            match dir_error w cur with
            | Some e => (inl e, w)
            | None =>
                (inr tt, mkWorld ({[path_join cur c]} ∪ fs_dirs w) (fs_files w) (stdout w))
            end
        | _ => (inl FileExistsError, w)
        end
    end.

(** The last step of [os.makedirs]: [os.mkdir] of the leaf, whose [OSError]
    is forgiven only if [exist_ok] and the leaf is a directory. *)
Definition makedirs_leaf (name : string) (exist_ok : bool) : Py unit :=
  try_except (os_mkdir name)
    (λ e, if is_OSError e
          then isdir ← os_path_isdir name;
               if negb exist_ok || negb isdir then raise e else mret tt
          else raise e).

(** [os.makedirs(name, exist_ok=...)], as the standard library writes it: the
    missing ancestors first (a race on their creation is forgiven, and a leaf
    that is [.] needs nothing more), then the leaf.  The recursion is on the
    head of the path, which is shorter; the fuel stands for Python's
    recursion limit. *)
Fixpoint makedirs_rec (fuel : nat) (name : string) (exist_ok : bool) : Py unit :=
  match fuel with
  | O => raise RecursionError
  | S fuel' =>
      let '(head, tail) := os_path_split name in
      let '(head, tail) :=
        if nonempty tail then (head, tail) else os_path_split head in
      head_exists ← os_path_exists head;
      if nonempty head && nonempty tail && negb head_exists
      then try_except (makedirs_rec fuel' head exist_ok)
             (λ e, match e with FileExistsError => mret tt | _ => raise e end);;
           if String.eqb tail "." then mret tt else makedirs_leaf name exist_ok
      else makedirs_leaf name exist_ok
  end.

Definition os_makedirs (name : string) (exist_ok : bool) : Py unit :=
  makedirs_rec (S (String.length name)) name exist_ok.

(** The file [open(path, "w+b")] creates or truncates, by its canonical
    name, or the error: a path that names a directory, or ends in a slash,
    cannot be opened for writing. *)
Definition open_target (w : World) (path : string) : Exception + string :=
  match resolve w path with
  | inl e => inl e
  | inr (AtDir _) => inl IsADirectoryError
  | inr (AtEntry cur c slash) =>
      match node_at w (path_join cur c) with
      | IsDir => inl IsADirectoryError
      | IsFile => if slash then inl IsADirectoryError else inr (path_join cur c)
      | IsAbsent =>
          match dir_error w cur with
          | Some e => inl e
          | None => if slash then inl IsADirectoryError else inr (path_join cur c)
          end
      end
  end.

(** [open(path, "w+b")]: the file is created, or truncated if it exists; the
    handle is the file's canonical name. *)
Definition open_wb (path : string) : Py string :=
  λ w,
    match open_target w path with
    | inl e => (inl e, w)
    | inr name =>
        (inr name, mkWorld (fs_dirs w) (<[name := []]> (fs_files w)) (stdout w))
    end.

(** [fp.write(data)] on an open handle. *)
Definition write_bytes (handle : string) (data : list Byte.byte) : Py unit :=
  λ w, (inr tt, mkWorld (fs_dirs w) (<[handle := data]> (fs_files w)) (stdout w)).

(** ** Pillow: colours, fonts, images, drawing *)

Definition Colour : Type := Z * Z * Z.

Definition hex_digit (c : Ascii.ascii) : option Z :=
  let n := Z.of_nat (Ascii.nat_of_ascii c) in
  if (48 <=? n) && (n <=? 57) then Some (n - 48)
  else if (97 <=? n) && (n <=? 102) then Some (n - 87)
  else if (65 <=? n) && (n <=? 70) then Some (n - 55)
  else None.

(** [ImageColor.getrgb] on the two notations the script uses: [#rrggbb] and
    the name [white]. *)
Definition getrgb (color : string) : option Colour :=
  match color with
  | String "#" (String r1 (String r0 (String g1 (String g0 (String b1 (String b0 "")))))) =>
      r1 ← hex_digit r1; r0 ← hex_digit r0;
      g1 ← hex_digit g1; g0 ← hex_digit g0;
      b1 ← hex_digit b1; b0 ← hex_digit b0;
      Some (16 * r1 + r0, 16 * g1 + g0, 16 * b1 + b0)
  | _ => if String.eqb color "white" then Some (255, 255, 255) else None
  end.

(** A loaded font: the bounding box [(left, top, right, bottom)] of a text
    anchored at the origin, and the coverage (0 to 255) of the pixel at an
    offset from the anchor. *)
Record Font := mkFont {
  font_getbbox : string → Z * Z * Z * Z;
  font_getmask : string → Z → Z → Z
}.

(** What the script cannot decide: which font files the machine has, what the
    built-in font looks like, and the PNG encoder (a function of the mode, the
    size and the rows of pixels). *)
Record Env := mkEnv {
  truetype_load : string → Z → Exception + Font;
  default_font : Font;
  png_encode : string → Z * Z → list (list Colour) → list Byte.byte
}.

Definition Box : Type := (Z * Z) * (Z * Z).

Inductive DrawOp :=
  | Rectangle (xy : Box) (outline : Colour) (width : Z)
  | Text (xy : Z * Z) (text : string) (fill : Colour) (font : Font).

(** An image is its mode, its size, the colour it was created with and the
    drawing operations applied since, oldest first. *)
Record Image := mkImage {
  im_mode : string;
  im_size : Z * Z;
  im_color : Colour;
  im_ops : list DrawOp
}.

Definition draw_op (img : Image) (op : DrawOp) : Image :=
  mkImage (im_mode img) (im_size img) (im_color img) (im_ops img ++ [op]).

(** The pixels an outline of [width] paints, as Pillow draws it: for each
    [i] below the width, the horizontal runs from [x0] to [x1] in the rows
    [y0 + i] and [y1 - i], and the vertical runs in the columns [x0 + i] and
    [x1 - i] between the rows [y0 + width] and [y1 - width + 1], whichever
    of the two is the upper.  In a box less wide or less high than twice the
    width the runs overlap, and may leave the box. *)
Definition on_outline (xy : Box) (width : Z) (px py : Z) : bool :=
  let '((x0, y0), (x1, y1)) := xy in
  ((x0 <=? px) && (px <=? x1) &&
   (((y0 <=? py) && (py <? y0 + width)) || ((y1 - width <? py) && (py <=? y1))))
  ||
  ((((x0 <=? px) && (px <? x0 + width)) || ((x1 - width <? px) && (px <=? x1))) &&
   (Z.min (y0 + width) (y1 - width + 1) <=? py) &&
   (py <=? Z.max (y0 + width) (y1 - width + 1))).

(** Pillow's division by 255, rounded to the nearest. *)
Definition div255 (a : Z) : Z :=
  let tmp := a + 128 in ((tmp ≫ 8) + tmp) ≫ 8.

(** Pillow's 8-bit blend of [in2] over [in1] under a coverage [mask]: the
    weighted sum is rounded once. *)
Definition blend8 (mask in1 in2 : Z) : Z :=
  div255 (in1 * (255 - mask) + in2 * mask).

Definition blend (mask : Z) (c ink : Colour) : Colour :=
  let '(r1, g1, b1) := c in
  let '(r2, g2, b2) := ink in
  (blend8 mask r1 r2, blend8 mask g1 g2, blend8 mask b1 b2).

Definition paint (px py : Z) (c : Colour) (op : DrawOp) : Colour :=
  match op with
  | Rectangle xy outline width => if on_outline xy width px py then outline else c
  | Text (x, y) text fill font => blend (font_getmask font text (px - x) (py - y)) c fill
  end.

Definition getpixel (img : Image) (px py : Z) : Colour :=
  foldl (paint px py) (im_color img) (im_ops img).

(** The rows of pixels, top to bottom. *)
Definition getdata (img : Image) : list (list Colour) :=
  (λ py, (λ px, getpixel img px py) <$> seqZ 0 (im_size img).1) <$> seqZ 0 (im_size img).2.

Definition box_ordered (xy : Box) : bool :=
  let '((x0, y0), (x1, y1)) := xy in (x0 <=? x1) && (y0 <=? y1).

(** [Image.new(mode, size, color)]; a canvas too large for the memory of the
    machine is not in the model. *)
Definition Image_new (mode : string) (size : Z * Z) (color : string) : Py Image :=
  if (size.1 <? 0) || (size.2 <? 0) then raise ValueError
  else match getrgb color with
       | None => raise ValueError
       | Some c => mret (mkImage mode size c [])
       end.

(** [draw.rectangle(xy, outline=..., width=...)] on the image [draw] was made
    for.  With the width 0 nothing is drawn; otherwise Pillow refuses a box
    whose second corner is before its first. *)
Definition ImageDraw_rectangle (img : Image) (xy : Box) (outline : string) (width : Z)
    : Py Image :=
  match getrgb outline with
  | None => raise ValueError
  | Some ink =>
      if width =? 0 then mret img
      else if box_ordered xy then mret (draw_op img (Rectangle xy ink width))
      else raise ValueError
  end.

(** [draw.textbbox(xy, text, font=font)] *)
Definition ImageDraw_textbbox (xy : Z * Z) (text : string) (font : Font) : Z * Z * Z * Z :=
  let '(bbox0, bbox1, bbox2, bbox3) := font_getbbox font text in
  (xy.1 + bbox0, xy.2 + bbox1, xy.1 + bbox2, xy.2 + bbox3).

(** [draw.text(xy, text, fill=..., font=font)] *)
Definition ImageDraw_text (img : Image) (xy : Z * Z) (text : string) (fill : string)
    (font : Font) : Py Image :=
  match getrgb fill with
  | None => raise ValueError
  | Some ink => mret (draw_op img (Text xy text ink font))
  end.

Section Script.

Context (env : Env).

(** [ImageFont.truetype(font, size)] and [ImageFont.load_default()] *)
Definition ImageFont_truetype (font : string) (size : Z) : Py Font :=
  λ w, (truetype_load env font size, w).

Definition ImageFont_load_default : Py Font := mret (default_font env).

(** [img.save(fp, format)]: only the PNG writer is in the model. *)
Definition Image_save (img : Image) (fp : string) (format : string) : Py unit :=
  if String.eqb format "PNG"
  then handle ← open_wb fp;
       write_bytes handle (png_encode env (im_mode img) (im_size img) (getdata img))
  else raise KeyError.

(** ** The script *)

(** The values [create_icon] derives from its arguments, under the names of
    its local variables ([text_x] and [text_y] are the script's [x] and [y]);
    [//] is the floor division of [Z]. *)
Definition border_width (size : Z) : Z := Z.max 2 (size / 40).

Definition font_size (size : Z) : Z := size / 2.

Definition text : string := "IM".

Definition text_width (bbox : Z * Z * Z * Z) : Z :=
  let '(bbox0, _, bbox2, _) := bbox in bbox2 - bbox0.

Definition text_height (bbox : Z * Z * Z * Z) : Z :=
  let '(_, bbox1, _, bbox3) := bbox in bbox3 - bbox1.

Definition text_x (size : Z) (bbox : Z * Z * Z * Z) : Z :=
  (size - text_width bbox) / 2.

Definition text_y (size : Z) (bbox : Z * Z * Z * Z) : Z :=
  let '(_, bbox1, _, _) := bbox in (size - text_height bbox) / 2 - bbox1.

Definition shadow_offset (size : Z) : Z := Z.max 1 (size / 100).

Definition create_icon (size : Z) (output_path : string) : Py unit :=
  img ← Image_new "RGB" (size, size) "#4CAF50";
  (* draw = ImageDraw.Draw(img): the drawing calls below act on img *)
  img ← ImageDraw_rectangle img
          ((border_width size, border_width size),
           (size - border_width size, size - border_width size))
          "#2E7D32" (border_width size);
  font ← try_except
           (ImageFont_truetype "/System/Library/Fonts/Helvetica.ttc" (font_size size))
           (λ _, ImageFont_load_default);
  let bbox := ImageDraw_textbbox (0, 0) text font in
  let x := text_x size bbox in
  let y := text_y size bbox in
  img ← ImageDraw_text img (x + shadow_offset size, y + shadow_offset size) text
          "#1B5E20" font;
  img ← ImageDraw_text img (x, y) text "white" font;
  Image_save img output_path "PNG";;
  print ("Created " +:+ output_path +:+ " (" +:+ pretty size +:+ "x" +:+ pretty size +:+ ")").

Definition sizes : list Z := [72; 96; 128; 144; 152; 192; 384; 512].

Definition icons_dir : string := "images/icons".

Definition output_path (size : Z) : string :=
  icons_dir +:+ "/icon-" +:+ pretty size +:+ "x" +:+ pretty size +:+ ".png".

Definition main : Py unit :=
  os_makedirs icons_dir true;;
  for_each sizes (λ size, create_icon size (output_path size));;
  print (String "010" "Successfully generated " +:+ pretty (Z.of_nat (length sizes))
         +:+ " PWA icons!").

End Script.

(** ** What a run leaves behind, stated outright *)

Definition helvetica : string := "/System/Library/Fonts/Helvetica.ttc".

(** The font the text is drawn with: the scalable font if loading it
    succeeded, the built-in one otherwise. *)
Definition icon_font (env : Env) (size : Z) : Font :=
  match truetype_load env helvetica (font_size size) with
  | inr font => font
  | inl _ => default_font env
  end.

Definition border_box (size : Z) : Box :=
  ((border_width size, border_width size),
   (size - border_width size, size - border_width size)).

Definition icon_bbox (env : Env) (size : Z) : Z * Z * Z * Z :=
  ImageDraw_textbbox (0, 0) text (icon_font env size).

Definition shadow_xy (env : Env) (size : Z) : Z * Z :=
  (text_x size (icon_bbox env size) + shadow_offset size,
   text_y size (icon_bbox env size) + shadow_offset size).

Definition text_xy (env : Env) (size : Z) : Z * Z :=
  (text_x size (icon_bbox env size), text_y size (icon_bbox env size)).

Definition background : Colour := (76, 175, 80).
Definition border_colour : Colour := (46, 125, 50).
Definition shadow_colour : Colour := (27, 94, 32).
Definition white : Colour := (255, 255, 255).

(** The canvas as it is when [create_icon] reaches [img.save]. *)
Definition icon_image (env : Env) (size : Z) : Image :=
  mkImage "RGB" (size, size) background
    [ Rectangle (border_box size) border_colour (border_width size);
      Text (shadow_xy env size) text shadow_colour (icon_font env size);
      Text (text_xy env size) text white (icon_font env size) ].

Definition icon_bytes (env : Env) (size : Z) : list Byte.byte :=
  png_encode env "RGB" (size, size) (getdata (icon_image env size)).

Definition created_line (output_path : string) (size : Z) : string :=
  "Created " +:+ output_path +:+ " (" +:+ pretty size +:+ "x" +:+ pretty size +:+ ")".

Definition is_text (op : DrawOp) : bool :=
  match op with Text _ _ _ _ => true | Rectangle _ _ _ => false end.

(** A path, written as a canonical name, can be opened for writing: it is
    not a directory, and its directory is there. *)
Definition writable (w : World) (path : string) : Prop :=
  open_target w path = inr path.

(** The world after a successful [create_icon]. *)
Definition icon_saved (env : Env) (size : Z) (path : string) (w : World) : World :=
  mkWorld (fs_dirs w) (<[path := icon_bytes env size]> (fs_files w))
    (stdout w ++ [created_line path size]).

(** The same when the path is not written as a canonical name: the file is
    the one the path resolves to, the status line shows the path as given. *)
Definition icon_saved_at (env : Env) (size : Z) (target path : string) (w : World)
    : World :=
  mkWorld (fs_dirs w) (<[target := icon_bytes env size]> (fs_files w))
    (stdout w ++ [created_line path size]).

(** A call at this size gets as far as [img.save] with the canvas [img]: on
    every path and in every world it is the saving of [img] followed by the
    status line. *)
Definition reaches_save (env : Env) (size : Z) (img : Image) : Prop :=
  ∀ path w,
    create_icon env size path w
    = (Image_save env img path "PNG";; print (created_line path size)) w.

(** What [main] asks of the world to run to its end: nothing that is not a
    directory stands where the directories are to be, and no directory stands
    where a file is to be written. *)
Definition main_ready (w : World) : Prop :=
  ("images" ∉ dom (fs_files w)) ∧ ("images/icons" ∉ dom (fs_files w)) ∧
  ∀ size, size ∈ sizes → output_path size ∉ fs_dirs w.

(** The last line [main] prints. *)
Definition summary_line : string :=
  String "010" "Successfully generated 8 PWA icons!".

(** The world after a complete run of [main]. *)
Definition main_final (env : Env) (w : World) : World :=
  mkWorld ({["images"; "images/icons"]} ∪ fs_dirs w)
    (foldl (λ files size, <[output_path size := icon_bytes env size]> files)
       (fs_files w) sizes)
    (stdout w ++ ((λ size, created_line (output_path size) size) <$> sizes)
       ++ [summary_line]).

(** ** Machines to run the script on *)

(** A font whose glyphs are solid blocks, three units wide and five high,
    hanging two units below the anchor. *)
Definition block_font (unit : Z) : Font :=
  mkFont
    (λ s, (0, 2 * unit, 3 * unit * Z.of_nat (String.length s), 7 * unit))
    (λ s dx dy,
       if (0 <=? dx) && (dx <? 3 * unit * Z.of_nat (String.length s))
          && (2 * unit <=? dy) && (dy <? 7 * unit)
       then 255 else 0).

(** An encoder that keeps only the size, one byte per dimension. *)
Definition size_encoder (mode : string) (size : Z * Z) (rows : list (list Colour))
    : list Byte.byte :=
  match Byte.of_N (Z.to_N (size.1 `mod` 256)), Byte.of_N (Z.to_N (size.2 `mod` 256)) with
  | Some a, Some b => [a; b]
  | _, _ => []
  end.

(** A machine without Helvetica, and one with it. *)
Definition no_helvetica : Env :=
  mkEnv (λ _ _, inl OSError) (block_font 2) size_encoder.

Definition with_helvetica : Env :=
  mkEnv (λ font size,
           if String.eqb font helvetica && (0 <? size)
           then inr (block_font (size / 8)) else inl OSError)
    (block_font 2) size_encoder.

Definition empty_world : World := mkWorld ∅ ∅ [].

Definition icons_world : World := mkWorld {["images"; "images/icons"]} ∅ [].

(** A world where a regular file stands at [images/icons]. *)
Definition blocked_world : World := mkWorld ∅ {["images/icons" := []]} [].

(** The machine on which loading the scalable font returns the built-in
    one: what a run with a failed load is compared with. *)
Definition default_only (env : Env) : Env :=
  mkEnv (λ _ _, inr (default_font env)) (default_font env) (png_encode env).

(** From [w] to [w'] nothing happened but, possibly, directories being made:
    the files and the output are the same and no directory is gone. *)
Definition only_more_dirs (w w' : World) : Prop :=
  fs_files w' = fs_files w ∧ stdout w' = stdout w ∧ fs_dirs w ⊆ fs_dirs w'.



(** ** Basic facts about computations *)

Lemma bind_inr {A B} (m : Py A) (f : A → Py B) w a w' :
  m w = (inr a, w') → (m ≫= f) w = f a w'.
Proof. intros H. unfold mbind, Py_bind. by rewrite H. Qed.

Lemma bind_inl {A B} (m : Py A) (f : A → Py B) w e w' :
  m w = (inl e, w') → (m ≫= f) w = (inl e, w').
Proof. intros H. unfold mbind, Py_bind. by rewrite H. Qed.

Lemma bind_mret {A B} (a : A) (f : A → Py B) w : (mret a ≫= f) w = f a w.
Proof. reflexivity. Qed.

Lemma getrgb_background : getrgb "#4CAF50" = Some background.
Proof. reflexivity. Qed.

Lemma getrgb_border : getrgb "#2E7D32" = Some border_colour.
Proof. reflexivity. Qed.

Lemma getrgb_shadow : getrgb "#1B5E20" = Some shadow_colour.
Proof. reflexivity. Qed.

Lemma getrgb_white : getrgb "white" = Some white.
Proof. reflexivity. Qed.

(** ** The border *)

Lemma border_width_ge_2 size : 2 ≤ border_width size.
Proof. unfold border_width. lia. Qed.

Lemma border_width_nonzero size : (border_width size =? 0) = false.
Proof. pose proof (border_width_ge_2 size). lia. Qed.

Lemma border_box_ordered size : box_ordered (border_box size) = true ↔ 4 ≤ size.
Proof.
  unfold box_ordered, border_box, border_width.
  rewrite andb_true_iff, !Z.leb_le. Z.div_mod_to_equations. lia.
Qed.

(** ** [create_icon], step by step *)

Lemma Image_new_canvas size w :
  0 ≤ size →
  Image_new "RGB" (size, size) "#4CAF50" w = (inr (mkImage "RGB" (size, size) background []), w).
Proof.
  intros Hsize. unfold Image_new. cbn [fst snd].
  rewrite (proj2 (Z.ltb_ge size 0) Hsize). cbn [orb].
  by rewrite getrgb_background.
Qed.

Lemma Image_new_negative size w :
  size < 0 → Image_new "RGB" (size, size) "#4CAF50" w = (inl ValueError, w).
Proof.
  intros Hsize. unfold Image_new. cbn [fst snd].
  by rewrite (proj2 (Z.ltb_lt size 0) Hsize).
Qed.

Lemma rectangle_border img size w :
  4 ≤ size →
  ImageDraw_rectangle img (border_box size) "#2E7D32" (border_width size) w
  = (inr (draw_op img (Rectangle (border_box size) border_colour (border_width size))), w).
Proof.
  intros Hsize. unfold ImageDraw_rectangle.
  rewrite getrgb_border, border_width_nonzero.
  by rewrite (proj2 (border_box_ordered size) Hsize).
Qed.

Lemma rectangle_border_refused img size w :
  size < 4 →
  ImageDraw_rectangle img (border_box size) "#2E7D32" (border_width size) w
  = (inl ValueError, w).
Proof.
  intros Hsize. unfold ImageDraw_rectangle.
  rewrite getrgb_border, border_width_nonzero.
  destruct (box_ordered (border_box size)) eqn:Hbox; [|done].
  apply (proj1 (border_box_ordered size)) in Hbox. lia.
Qed.

(** The font step never raises, prints nothing and leaves the world alone. *)
Lemma font_step env size w :
  try_except (ImageFont_truetype env helvetica (font_size size))
    (λ _, ImageFont_load_default env) w
  = (inr (icon_font env size), w).
Proof.
  unfold try_except, ImageFont_truetype, ImageFont_load_default, icon_font.
  by destruct (truetype_load env helvetica (font_size size)).
Qed.

Lemma text_step img xy fill ink font w :
  getrgb fill = Some ink →
  ImageDraw_text img xy text fill font w = (inr (draw_op img (Text xy text ink font)), w).
Proof. intros H. unfold ImageDraw_text. by rewrite H. Qed.

(** ** Names and the file system *)

Lemma is_dir_in w name : name ∈ fs_dirs w → is_dir w name = true.
Proof.
  intros Hin. unfold is_dir. by rewrite (bool_decide_eq_true_2 _ Hin), orb_true_r.
Qed.

Lemma dir_error_in w name : name ∈ fs_dirs w → dir_error w name = None.
Proof. intros Hin. unfold dir_error. by rewrite is_dir_in. Qed.

Lemma node_at_plain w name :
  fixed_dir name = false →
  node_at w name =
    if bool_decide (name ∈ fs_dirs w) then IsDir
    else if bool_decide (name ∈ dom (fs_files w)) then IsFile else IsAbsent.
Proof. intros Hfix. unfold node_at, is_dir. by rewrite Hfix. Qed.

(** Every refusal of the file system is an [OSError]. *)
Lemma blocked_at_OSError w cur comps : is_OSError (blocked_at w cur comps) = true.
Proof.
  revert cur. induction comps as [|c comps IH]; intros cur; cbn [blocked_at]; [done|].
  by destruct (node_at w (path_join cur c)).
Qed.

Lemma dir_error_OSError w name e : dir_error w name = Some e → is_OSError e = true.
Proof.
  unfold dir_error. destruct (is_dir w name); [done|].
  intros [= <-]. apply blocked_at_OSError.
Qed.

Lemma canonical_OSError w cur comps e :
  canonical w cur comps = inl e → is_OSError e = true.
Proof.
  revert cur. induction comps as [|c comps IH]; intros cur; cbn [canonical]; [done|].
  destruct (is_dots c); [|apply IH].
  destruct (dir_error w cur) as [e'|] eqn:Hdir; [|apply IH].
  intros [= <-]. by apply (dir_error_OSError w cur).
Qed.

Lemma resolve_nul w path : has_nul path = true → resolve w path = inl ValueError.
Proof. intros Hnul. unfold resolve. by rewrite Hnul. Qed.

Lemma resolve_OSError w path e :
  has_nul path = false → resolve w path = inl e → is_OSError e = true.
Proof.
  intros Hnul. unfold resolve. rewrite Hnul.
  destruct (String.eqb path ""); [by intros [= <-]|].
  destruct (last (names path)) as [c|]; [|done].
  destruct (is_dots c).
  - destruct (canonical w (start_of path) (names path)) as [e'|name] eqn:Hcan; [|done].
    intros [= <-]. by apply canonical_OSError in Hcan.
  - destruct (canonical w (start_of path) (removelast (names path))) as [e'|name] eqn:Hcan;
      [|done].
    intros [= <-]. by apply canonical_OSError in Hcan.
Qed.

(** A path with a NUL byte is refused by Python, with [ValueError]. *)
Lemma open_target_nul w path : has_nul path = true → open_target w path = inl ValueError.
Proof. intros Hnul. unfold open_target. by rewrite resolve_nul. Qed.

Lemma open_target_OSError w path e :
  has_nul path = false → open_target w path = inl e → is_OSError e = true.
Proof.
  intros Hnul.
  unfold open_target. destruct (resolve w path) as [e'|[name|cur c slash]] eqn:Hres.
  - intros [= <-]. by apply resolve_OSError in Hres.
  - by intros [= <-].
  - destruct (node_at w (path_join cur c)).
    + by intros [= <-].
    + destruct slash; [by intros [= <-]|done].
    + destruct (dir_error w cur) as [e'|] eqn:Hdir.
      * intros [= <-]. by apply dir_error_OSError in Hdir.
      * destruct slash; [by intros [= <-]|done].
Qed.

(** ** Saving *)

Lemma save_step_at env img path target w :
  open_target w path = inr target →
  Image_save env img path "PNG" w
  = (inr tt, mkWorld (fs_dirs w)
               (<[target := png_encode env (im_mode img) (im_size img) (getdata img)]>
                  (fs_files w))
               (stdout w)).
Proof.
  intros Hopen. unfold Image_save. rewrite String.eqb_refl.
  erewrite bind_inr.
  2:{ unfold open_wb. by rewrite Hopen. }
  unfold write_bytes. cbn [fs_dirs fs_files stdout]. by rewrite insert_insert_eq.
Qed.

Lemma save_step env img path w :
  writable w path →
  Image_save env img path "PNG" w
  = (inr tt, mkWorld (fs_dirs w)
               (<[path := png_encode env (im_mode img) (im_size img) (getdata img)]> (fs_files w))
               (stdout w)).
Proof. apply save_step_at. Qed.

Lemma save_step_refused env img path w e :
  open_target w path = inl e → Image_save env img path "PNG" w = (inl e, w).
Proof.
  intros Hopen. unfold Image_save. rewrite String.eqb_refl.
  apply bind_inl. unfold open_wb. by rewrite Hopen.
Qed.

(** One statement of a computation has run: it returned, or it raised. *)
Ltac returns tac := erewrite bind_inr by tac.
Ltac raises tac := erewrite bind_inl by tac.

(** From the border on, [create_icon] is: save the finished canvas, report. *)
Lemma create_icon_draws env size : 4 ≤ size → reaches_save env size (icon_image env size).
Proof.
  intros Hsize path w. unfold create_icon.
  returns ltac:(apply Image_new_canvas; lia).
  returns ltac:(apply (rectangle_border _ size); lia).
  returns ltac:(apply font_step).
  returns ltac:(apply text_step, getrgb_shadow).
  returns ltac:(apply text_step, getrgb_white).
  done.
Qed.

Lemma create_icon_at env size path target w :
  4 ≤ size → open_target w path = inr target →
  create_icon env size path w = (inr tt, icon_saved_at env size target path w).
Proof.
  intros Hsize Hopen. rewrite create_icon_draws by done.
  returns ltac:(by apply save_step_at).
  done.
Qed.

Lemma create_icon_ok env size path w :
  4 ≤ size → writable w path →
  create_icon env size path w = (inr tt, icon_saved env size path w).
Proof. apply create_icon_at. Qed.

(** A path that cannot be opened: the error of the open is the error of the
    call, and nothing has happened. *)
Lemma create_icon_refused env size path w e :
  4 ≤ size → open_target w path = inl e → create_icon env size path w = (inl e, w).
Proof.
  intros Hsize Hopen. rewrite create_icon_draws by done.
  by raises ltac:(by apply save_step_refused).
Qed.

(** Below four pixels the border box is refused, and nothing else happens. *)
Lemma create_icon_too_small env size path w :
  size < 4 → create_icon env size path w = (inl ValueError, w).
Proof.
  intros Hsize. unfold create_icon.
  destruct (Z.lt_ge_cases size 0).
  - raises ltac:(by apply Image_new_negative). done.
  - returns ltac:(by apply Image_new_canvas).
    raises ltac:(by apply (rectangle_border_refused _ size)). done.
Qed.

(** ** The output directory *)

Lemma makedirs_rec_unfold fuel name exist_ok :
  makedirs_rec (S fuel) name exist_ok =
    (let '(head, tail) := os_path_split name in
     let '(head, tail) :=
       if nonempty tail then (head, tail) else os_path_split head in
     head_exists ← os_path_exists head;
     if nonempty head && nonempty tail && negb head_exists
     then try_except (makedirs_rec fuel head exist_ok)
            (λ e, match e with FileExistsError => mret tt | _ => raise e end);;
          if String.eqb tail "." then mret tt else makedirs_leaf name exist_ok
     else makedirs_leaf name exist_ok).
Proof. reflexivity. Qed.

Lemma split_icons_dir : os_path_split "images/icons" = ("images", "icons").
Proof. reflexivity. Qed.

Lemma split_images : os_path_split "images" = ("", "images").
Proof. reflexivity. Qed.

Lemma dirs_absorb (a b : string) (ds : gset string) :
  a ∈ ds → {[b]} ∪ ds = {[a; b]} ∪ ds.
Proof.
  intros Ha. apply set_eq. intros x.
  rewrite !elem_of_union, !elem_of_singleton. split; [tauto|].
  intros [[->|?]|?]; tauto.
Qed.

Lemma dirs_absorb_leaf (b : string) (ds : gset string) :
  b ∈ ds → ds = {[b]} ∪ ds.
Proof.
  intros Hb. apply set_eq. intros x.
  rewrite elem_of_union, elem_of_singleton. split; [tauto|].
  intros [->|?]; tauto.
Qed.

Lemma dirs_both (a b : string) (ds : gset string) :
  {[b]} ∪ ({[a]} ∪ ds) = {[a; b]} ∪ ds.
Proof.
  apply set_eq. intros x. rewrite !elem_of_union, !elem_of_singleton. tauto.
Qed.

Lemma same_but_dirs {A} (a : A) ds1 ds2 fs out :
  ds1 = ds2 → (a, mkWorld ds1 fs out) = (a, mkWorld ds2 fs out).
Proof. by intros ->. Qed.

(** What the two names [os.makedirs] looks at resolve to. *)
Lemma resolve_images w : resolve w "images" = inr (AtEntry "" "images" false).
Proof. reflexivity. Qed.

Lemma resolve_icons_dir w : resolve w "images/icons" = inr (AtEntry "images" "icons" false).
Proof. reflexivity. Qed.

Lemma node_at_images w :
  node_at w "images" =
    if bool_decide ("images" ∈ fs_dirs w) then IsDir
    else if bool_decide ("images" ∈ dom (fs_files w)) then IsFile else IsAbsent.
Proof. by apply node_at_plain. Qed.

Lemma node_at_icons_dir w :
  node_at w "images/icons" =
    if bool_decide ("images/icons" ∈ fs_dirs w) then IsDir
    else if bool_decide ("images/icons" ∈ dom (fs_files w)) then IsFile else IsAbsent.
Proof. by apply node_at_plain. Qed.

Lemma exists_images w :
  os_path_exists "images" w
  = (inr (bool_decide ("images" ∈ fs_dirs w) || bool_decide ("images" ∈ dom (fs_files w))), w).
Proof.
  unfold os_path_exists, os_stat. rewrite resolve_images.
  change (path_join "" "images") with "images". rewrite node_at_images.
  by repeat case_match.
Qed.

Lemma isdir_icons_dir w :
  os_path_isdir "images/icons" w = (inr (bool_decide ("images/icons" ∈ fs_dirs w)), w).
Proof.
  unfold os_path_isdir, os_stat. rewrite resolve_icons_dir.
  change (path_join "images" "icons") with "images/icons". rewrite node_at_icons_dir.
  by repeat case_match.
Qed.

(** [os.mkdir] of a top-level name that is neither a directory nor a file. *)
Lemma mkdir_images ds fs out :
  "images" ∉ ds → "images" ∉ dom fs →
  os_mkdir "images" (mkWorld ds fs out) = (inr tt, mkWorld ({["images"]} ∪ ds) fs out).
Proof.
  intros Hd Hf. unfold os_mkdir. rewrite resolve_images.
  change (path_join "" "images") with "images". rewrite node_at_images.
  cbn [fs_dirs fs_files stdout].
  rewrite (bool_decide_eq_false_2 _ Hd), (bool_decide_eq_false_2 _ Hf).
  reflexivity.
Qed.

Lemma mkdir_icons_dir ds fs out :
  "images" ∈ ds → "images/icons" ∉ ds → "images/icons" ∉ dom fs →
  os_mkdir "images/icons" (mkWorld ds fs out)
  = (inr tt, mkWorld ({["images/icons"]} ∪ ds) fs out).
Proof.
  intros Hp Hd Hf. unfold os_mkdir. rewrite resolve_icons_dir.
  change (path_join "images" "icons") with "images/icons". rewrite node_at_icons_dir.
  cbn [fs_dirs fs_files stdout].
  rewrite (bool_decide_eq_false_2 _ Hd), (bool_decide_eq_false_2 _ Hf).
  by rewrite dir_error_in.
Qed.

Lemma mkdir_icons_dir_exists ds fs out :
  "images/icons" ∈ ds →
  os_mkdir "images/icons" (mkWorld ds fs out) = (inl FileExistsError, mkWorld ds fs out).
Proof.
  intros Hd. unfold os_mkdir. rewrite resolve_icons_dir.
  change (path_join "images" "icons") with "images/icons". rewrite node_at_icons_dir.
  cbn [fs_dirs fs_files stdout]. by rewrite (bool_decide_eq_true_2 _ Hd).
Qed.

(** A regular file at the name is in the way. *)
Lemma mkdir_icons_dir_file ds fs out :
  "images/icons" ∉ ds → "images/icons" ∈ dom fs →
  os_mkdir "images/icons" (mkWorld ds fs out) = (inl FileExistsError, mkWorld ds fs out).
Proof.
  intros Hd Hf. unfold os_mkdir. rewrite resolve_icons_dir.
  change (path_join "images" "icons") with "images/icons". rewrite node_at_icons_dir.
  cbn [fs_dirs fs_files stdout].
  by rewrite (bool_decide_eq_false_2 _ Hd), (bool_decide_eq_true_2 _ Hf).
Qed.

(** A regular file where the parent should be. *)
Lemma mkdir_icons_dir_blocked ds fs out :
  "images/icons" ∉ ds → "images/icons" ∉ dom fs → "images" ∉ ds → "images" ∈ dom fs →
  os_mkdir "images/icons" (mkWorld ds fs out) = (inl NotADirectoryError, mkWorld ds fs out).
Proof.
  intros Hd Hf Hd1 Hf1. unfold os_mkdir. rewrite resolve_icons_dir.
  change (path_join "images" "icons") with "images/icons". rewrite node_at_icons_dir.
  cbn [fs_dirs fs_files stdout].
  rewrite (bool_decide_eq_false_2 _ Hd), (bool_decide_eq_false_2 _ Hf).
  unfold dir_error, is_dir. change (fixed_dir "images") with false.
  cbn [orb fs_dirs]. rewrite (bool_decide_eq_false_2 _ Hd1).
  change (names "images") with ["images"]. change (start_of "images") with "".
  cbn [blocked_at]. change (path_join "" "images") with "images".
  rewrite node_at_images. cbn [fs_dirs fs_files].
  by rewrite (bool_decide_eq_false_2 _ Hd1), (bool_decide_eq_true_2 _ Hf1).
Qed.

(** The leaf of [os.makedirs("images/icons", exist_ok=True)], once the parent
    is a directory. *)
Lemma makedirs_leaf_icons_dir ds fs out :
  "images" ∈ ds → "images/icons" ∉ dom fs →
  makedirs_leaf "images/icons" true (mkWorld ds fs out)
  = (inr tt, mkWorld ({["images/icons"]} ∪ ds) fs out).
Proof.
  intros Hp Hf. unfold makedirs_leaf, try_except.
  destruct (decide ("images/icons" ∈ ds)) as [Hd|Hd].
  - rewrite mkdir_icons_dir_exists by done. cbn [is_OSError].
    unfold mbind, Py_bind. rewrite isdir_icons_dir. cbn [fs_dirs].
    rewrite (bool_decide_eq_true_2 _ Hd). cbn [negb orb]. unfold mret, Py_ret.
    by apply same_but_dirs, dirs_absorb_leaf.
  - by rewrite mkdir_icons_dir.
Qed.

(** The leaf when a regular file stands there. *)
Lemma makedirs_leaf_icons_dir_file ds fs out :
  "images/icons" ∉ ds → "images/icons" ∈ dom fs →
  makedirs_leaf "images/icons" true (mkWorld ds fs out)
  = (inl FileExistsError, mkWorld ds fs out).
Proof.
  intros Hd Hf. unfold makedirs_leaf, try_except.
  rewrite mkdir_icons_dir_file by done. cbn [is_OSError].
  unfold mbind, Py_bind. rewrite isdir_icons_dir. cbn [fs_dirs].
  by rewrite (bool_decide_eq_false_2 _ Hd).
Qed.

Lemma makedirs_images ds fs out :
  "images" ∉ ds → "images" ∉ dom fs →
  makedirs_rec 12 "images" true (mkWorld ds fs out)
  = (inr tt, mkWorld ({["images"]} ∪ ds) fs out).
Proof.
  intros Hd Hf. rewrite makedirs_rec_unfold, split_images. cbn [nonempty andb].
  unfold mbind at 1, Py_bind at 1, os_path_exists at 1.
  unfold makedirs_leaf, try_except. by rewrite mkdir_images.
Qed.

Lemma makedirs_icons_dir w :
  "images" ∉ dom (fs_files w) → "images/icons" ∉ dom (fs_files w) →
  os_makedirs icons_dir true w
  = (inr tt, mkWorld ({["images"; "images/icons"]} ∪ fs_dirs w) (fs_files w) (stdout w)).
Proof.
  destruct w as [ds fs out]. cbn [fs_dirs fs_files stdout]. intros Hf1 Hf2.
  unfold os_makedirs, icons_dir. cbn [String.length].
  rewrite makedirs_rec_unfold, split_icons_dir. cbn [nonempty andb].
  unfold mbind at 1, Py_bind at 1. rewrite exists_images. cbn [fs_dirs fs_files].
  rewrite (bool_decide_eq_false_2 _ Hf1), orb_false_r.
  destruct (decide ("images" ∈ ds)) as [Hd|Hd].
  - rewrite (bool_decide_eq_true_2 _ Hd). cbn [negb]. cbv iota.
    rewrite makedirs_leaf_icons_dir by done. by apply same_but_dirs, dirs_absorb.
  - rewrite (bool_decide_eq_false_2 _ Hd). cbn [negb]. cbv iota.
    erewrite bind_inr.
    2:{ unfold try_except. by rewrite makedirs_images. }
    change (String.eqb "icons" ".") with false. cbv iota.
    rewrite makedirs_leaf_icons_dir.
    + apply same_but_dirs, dirs_both.
    + apply elem_of_union_l, elem_of_singleton. reflexivity.
    + done.
Qed.

(** ** The loop of [main] *)

Lemma sizes_cases (P : Z → Prop) :
  P 72 → P 96 → P 128 → P 144 → P 152 → P 192 → P 384 → P 512 →
  ∀ size, size ∈ sizes → P size.
Proof.
  intros ? ? ? ? ? ? ? ? size Hin. unfold sizes in Hin.
  repeat (apply elem_of_cons in Hin as [->|Hin]; [assumption|]).
  by apply elem_of_nil in Hin.
Qed.

Lemma sizes_ge_4 size : size ∈ sizes → 4 ≤ size.
Proof. revert size. apply sizes_cases; lia. Qed.

Lemma output_path_facts size :
  size ∈ sizes →
  output_path size ≠ "" ∧ output_path size ≠ "images" ∧
  output_path size ≠ "images/icons" ∧
  os_path_dirname (output_path size) = "images/icons".
Proof.
  revert size. apply sizes_cases; vm_compute; repeat split; congruence.
Qed.

(** The path of an icon names an entry of [images/icons], and is a
    canonical name. *)
Lemma resolve_output_path size w :
  size ∈ sizes →
  ∃ c, resolve w (output_path size) = inr (AtEntry icons_dir c false) ∧
       path_join icons_dir c = output_path size ∧
       fixed_dir (output_path size) = false.
Proof.
  revert size. apply sizes_cases; eexists; (split; [reflexivity|]); split; reflexivity.
Qed.

Lemma open_target_output_path size w :
  size ∈ sizes →
  open_target w (output_path size) =
    if bool_decide (output_path size ∈ fs_dirs w) then inl IsADirectoryError
    else if bool_decide (output_path size ∈ dom (fs_files w)) then inr (output_path size)
    else match dir_error w icons_dir with
         | Some e => inl e
         | None => inr (output_path size)
         end.
Proof.
  intros Hin. destruct (resolve_output_path size w Hin) as (c & Hres & Hjoin & Hfix).
  unfold open_target. rewrite Hres, Hjoin, node_at_plain by done.
  by repeat case_match.
Qed.


Lemma writable_icons w size :
  size ∈ sizes → icons_dir ∈ fs_dirs w → output_path size ∉ fs_dirs w →
  writable w (output_path size).
Proof.
  intros Hin Hdir Hfree. unfold writable. rewrite open_target_output_path by done.
  rewrite (bool_decide_eq_false_2 _ Hfree), dir_error_in by done.
  by case_match.
Qed.

Lemma for_each_icons env (l : list Z) w :
  icons_dir ∈ fs_dirs w →
  (∀ size, size ∈ l → size ∈ sizes ∧ output_path size ∉ fs_dirs w) →
  for_each l (λ size, create_icon env size (output_path size)) w
  = (inr tt, foldl (λ w size, icon_saved env size (output_path size) w) w l).
Proof.
  revert w. induction l as [|size l IH]; intros w Hdir Hl; [done|].
  cbn [for_each foldl].
  destruct (Hl size) as [Hin Hfree]; [by left|].
  erewrite bind_inr by (apply create_icon_ok; [by apply sizes_ge_4|by apply writable_icons]).
  apply IH; [done|]. intros size' Hin'. apply Hl. by right.
Qed.

Lemma icons_saved_world env (l : list Z) w :
  foldl (λ w size, icon_saved env size (output_path size) w) w l
  = mkWorld (fs_dirs w)
      (foldl (λ files size, <[output_path size := icon_bytes env size]> files) (fs_files w) l)
      (stdout w ++ ((λ size, created_line (output_path size) size) <$> l)).
Proof.
  revert w. induction l as [|size l IH]; intros w.
  - destruct w. cbn. by rewrite app_nil_r.
  - cbn [foldl fmap list_fmap]. rewrite IH. unfold icon_saved. cbn [fs_dirs fs_files stdout].
    by rewrite <- app_assoc.
Qed.

Lemma writable_after_makedirs w size :
  main_ready w → size ∈ sizes →
  writable (mkWorld ({["images"; "images/icons"]} ∪ fs_dirs w) (fs_files w) (stdout w))
    (output_path size).
Proof.
  intros (_ & _ & Hdirs) Hin.
  destruct (output_path_facts size Hin) as (Hne & Hn1 & Hn2 & Hparent).
  apply writable_icons; [done| |].
  - cbn [fs_dirs]. unfold icons_dir. rewrite !elem_of_union, !elem_of_singleton. tauto.
  - cbn [fs_dirs]. rewrite !elem_of_union, !elem_of_singleton.
    specialize (Hdirs size Hin). tauto.
Qed.

Lemma main_ok env w : main_ready w → main env w = (inr tt, main_final env w).
Proof.
  intros Hready. unfold main.
  destruct (Hready) as (Hf1 & Hf2 & Hdirs).
  erewrite bind_inr by (by apply makedirs_icons_dir).
  erewrite bind_inr.
  2:{ apply for_each_icons.
      - cbn [fs_dirs]. unfold icons_dir. rewrite !elem_of_union, !elem_of_singleton. tauto.
      - intros size Hin. split; [done|].
        destruct (output_path_facts size Hin) as (_ & Hn1 & Hn2 & _).
        cbn [fs_dirs]. rewrite !elem_of_union, !elem_of_singleton.
        specialize (Hdirs size Hin). tauto. }
  rewrite icons_saved_world. unfold print, main_final. cbn [fs_dirs fs_files stdout].
  by rewrite <- app_assoc.
Qed.

(** ** The files [main] leaves *)

Lemma output_paths :
  output_path <$> sizes =
    [ "images/icons/icon-72x72.png"; "images/icons/icon-96x96.png";
      "images/icons/icon-128x128.png"; "images/icons/icon-144x144.png";
      "images/icons/icon-152x152.png"; "images/icons/icon-192x192.png";
      "images/icons/icon-384x384.png"; "images/icons/icon-512x512.png" ].
Proof. reflexivity. Qed.

Lemma output_paths_NoDup : NoDup (output_path <$> sizes).
Proof. apply (bool_decide_unpack _). by vm_compute. Qed.

Section Inserts.

Context {V : Type} (f : Z → string) (g : Z → V).

Lemma foldl_insert_lookup_ne (l : list Z) (m : gmap string V) p :
  p ∉ f <$> l → foldl (λ m x, <[f x := g x]> m) m l !! p = m !! p.
Proof.
  revert m. induction l as [|x l IH]; intros m Hp; [done|].
  cbn [foldl]. rewrite fmap_cons, not_elem_of_cons in Hp. destruct Hp as [Hne Hp].
  rewrite IH by done. by rewrite lookup_insert_ne.
Qed.

Lemma foldl_insert_lookup (l : list Z) (m : gmap string V) x :
  NoDup (f <$> l) → x ∈ l → foldl (λ m x, <[f x := g x]> m) m l !! f x = Some (g x).
Proof.
  revert m. induction l as [|y l IH]; intros m Hnd Hin.
  - by apply elem_of_nil in Hin.
  - rewrite fmap_cons in Hnd. apply NoDup_cons in Hnd as [Hy Hnd]. cbn [foldl].
    destruct (decide (x ∈ l)) as [Hl|Hl]; [by apply IH|].
    apply elem_of_cons in Hin as [->|?]; [|done].
    rewrite foldl_insert_lookup_ne by done. apply lookup_insert_eq.
Qed.

End Inserts.

Lemma main_final_icon env w size :
  size ∈ sizes → fs_files (main_final env w) !! output_path size = Some (icon_bytes env size).
Proof.
  intros Hin. unfold main_final. cbn [fs_files].
  by apply (foldl_insert_lookup output_path (icon_bytes env)), Hin; apply output_paths_NoDup.
Qed.

Lemma main_final_other env w p :
  p ∉ output_path <$> sizes → fs_files (main_final env w) !! p = fs_files w !! p.
Proof.
  intros Hp. unfold main_final. cbn [fs_files].
  by apply (foldl_insert_lookup_ne output_path (icon_bytes env)).
Qed.

Lemma not_output_path (p : string) :
  (∀ size, size ∈ sizes → output_path size ≠ p) → p ∉ output_path <$> sizes.
Proof.
  intros Hp Hin. apply list_elem_of_fmap in Hin as (size & -> & Hin). by apply (Hp size).
Qed.

(** A second run finds the world ready, and rewrites the same files. *)
Lemma main_ready_final env w : main_ready w → main_ready (main_final env w).
Proof.
  intros (Hf1 & Hf2 & Hdirs). repeat split.
  - rewrite not_elem_of_dom, main_final_other; [by apply not_elem_of_dom|].
    apply not_output_path. intros size Hin. by apply output_path_facts.
  - rewrite not_elem_of_dom, main_final_other; [by apply not_elem_of_dom|].
    apply not_output_path. intros size Hin. by apply output_path_facts.
  - intros size Hin. unfold main_final. cbn [fs_dirs].
    destruct (output_path_facts size Hin) as (_ & Hn1 & Hn2 & _).
    rewrite !elem_of_union, !elem_of_singleton. specialize (Hdirs size Hin). tauto.
Qed.

Lemma main_final_files_idem env w :
  fs_files (main_final env (main_final env w)) = fs_files (main_final env w).
Proof.
  apply map_eq. intros p.
  destruct (decide (p ∈ output_path <$> sizes)) as [Hin|Hout].
  - apply list_elem_of_fmap in Hin as (size & -> & Hin). by rewrite !main_final_icon.
  - by rewrite (main_final_other env (main_final env w)).
Qed.

(** ** The pixels *)

Lemma div255_exact c : 0 ≤ c ≤ 255 → div255 (c * 255) = c.
Proof.
  intros Hc. unfold div255. cbv zeta. rewrite !Z.shiftr_div_pow2 by lia.
  change (2 ^ 8) with 256. Z.div_mod_to_equations. lia.
Qed.

(** Full coverage replaces the pixel, no coverage keeps it. *)
Lemma blend8_full c ink : 0 ≤ ink ≤ 255 → blend8 255 c ink = ink.
Proof.
  intros Hink. unfold blend8. change (255 - 255) with 0.
  rewrite Z.mul_0_r, Z.add_0_l. by apply div255_exact.
Qed.

Lemma blend8_none c ink : 0 ≤ c ≤ 255 → blend8 0 c ink = c.
Proof.
  intros Hc. unfold blend8. change (255 - 0) with 255.
  rewrite Z.mul_0_r, Z.add_0_r. by apply div255_exact.
Qed.

(** In between the weighted sum is rounded once. *)
Lemma blend_rounds_once : blend 240 background shadow_colour = (30, 99, 35).
Proof. reflexivity. Qed.

Lemma blend_full_white c : blend 255 c white = white.
Proof.
  destruct c as [[r g] b]. unfold blend, white.
  by rewrite !blend8_full by lia.
Qed.

Lemma getpixel_icon env size px py :
  getpixel (icon_image env size) px py
  = paint px py
      (paint px py
         (paint px py background
            (Rectangle (border_box size) border_colour (border_width size)))
         (Text (shadow_xy env size) text shadow_colour (icon_font env size)))
      (Text (text_xy env size) text white (icon_font env size)).
Proof. reflexivity. Qed.

Lemma getdata_rows img :
  length (getdata img) = Z.to_nat (im_size img).2 ∧
  Forall (λ row, length row = Z.to_nat (im_size img).1) (getdata img).
Proof.
  unfold getdata. split.
  - by rewrite length_fmap, length_seqZ.
  - apply Forall_fmap, Forall_forall. intros py _. cbn.
    by rewrite length_fmap, length_seqZ.
Qed.

(** [create_icon] never makes or removes a directory. *)
Lemma create_icon_dirs env size path w :
  fs_dirs (create_icon env size path w).2 = fs_dirs w.
Proof.
  destruct (Z.lt_ge_cases size 4) as [Hsmall|Hsize].
  - by rewrite create_icon_too_small.
  - destruct (open_target w path) as [e|target] eqn:Hopen.
    + by rewrite (create_icon_refused env size path w e).
    + by rewrite (create_icon_at env size path target w).
Qed.

(** When a call returns, the border box was accepted and the path could be
    opened; the world is then the old one with the icon saved. *)
Lemma create_icon_returns env size path w :
  (create_icon env size path w).1 = inr tt →
  4 ≤ size ∧
  ∃ target, open_target w path = inr target ∧
            (create_icon env size path w).2 = icon_saved_at env size target path w.
Proof.
  intros Hret. destruct (Z.lt_ge_cases size 4) as [Hsmall|Hsize].
  { by rewrite create_icon_too_small in Hret. }
  split; [done|]. destruct (open_target w path) as [e|target] eqn:Hopen.
  - by rewrite (create_icon_refused env size path w e) in Hret.
  - exists target. split; [done|]. by rewrite (create_icon_at env size path target w).
Qed.


(** A path that cannot be opened never lets a call return. *)
Lemma create_icon_unopened env size path w e :
  open_target w path = inl e →
  (create_icon env size path w).1 ≠ inr tt ∧ (create_icon env size path w).2 = w.
Proof.
  intros Hopen. destruct (Z.lt_ge_cases size 4) as [Hsmall|Hsize].
  - by rewrite create_icon_too_small.
  - by rewrite (create_icon_refused env size path w e).
Qed.

(** The outline at the pixels, from size 6 on: everything painted lies
    between the corners, and the columns at [width] and at [size - width]
    are painted from the one corner to the other. *)
Lemma border_outline_inside size px py :
  6 ≤ size →
  on_outline (border_box size) (border_width size) px py = true →
  border_width size ≤ px ≤ size - border_width size ∧
  border_width size ≤ py ≤ size - border_width size.
Proof.
  intros Hsize. pose proof (border_width_ge_2 size) as Hw.
  unfold on_outline, border_box.
  rewrite !orb_true_iff, !andb_true_iff, !orb_true_iff, !andb_true_iff,
    !Z.leb_le, !Z.ltb_lt.
  unfold border_width in *. Z.div_mod_to_equations. lia.
Qed.

Lemma border_outline_columns size py :
  4 ≤ size →
  border_width size ≤ py ≤ size - border_width size →
  on_outline (border_box size) (border_width size) (border_width size) py = true ∧
  on_outline (border_box size) (border_width size) (size - border_width size) py = true.
Proof.
  intros Hsize Hpy. pose proof (border_width_ge_2 size) as Hw.
  unfold on_outline, border_box.
  rewrite !orb_true_iff, !andb_true_iff, !orb_true_iff, !andb_true_iff,
    !Z.leb_le, !Z.ltb_lt.
  unfold border_width in *. Z.div_mod_to_equations. lia.
Qed.

Lemma icons_world_writable size :
  size ∈ sizes → writable icons_world (output_path size).
Proof.
  intros Hin. destruct (output_path_facts size Hin) as (Hne & Hn1 & Hn2 & Hparent).
  apply writable_icons; [done| |].
  - unfold icons_world, icons_dir. cbn [fs_dirs].
    rewrite !elem_of_union, !elem_of_singleton. tauto.
  - unfold icons_world. cbn [fs_dirs]. rewrite !elem_of_union, !elem_of_singleton. tauto.
Qed.

Lemma empty_world_ready : main_ready empty_world.
Proof.
  unfold main_ready, empty_world. cbn [fs_dirs fs_files].
  rewrite dom_empty_L. repeat split; intros; apply not_elem_of_empty.
Qed.

(** The machine enters the canvas only through the font, and the saving
    only through the encoder. *)
Lemma icon_image_font env1 env2 size :
  icon_font env1 size = icon_font env2 size → icon_image env1 size = icon_image env2 size.
Proof.
  intros Hfont. unfold icon_image, shadow_xy, text_xy, icon_bbox. by rewrite Hfont.
Qed.

Lemma Image_save_encoder env1 env2 img path w :
  png_encode env1 = png_encode env2 →
  Image_save env1 img path "PNG" w = Image_save env2 img path "PNG" w.
Proof. intros Henc. unfold Image_save. by rewrite Henc. Qed.

(** * The claims *)

(** C1: for every size of the fixed set, [create_icon] draws a square RGB
    image of exactly size by size pixels and writes its PNG encoding to the
    destination path (the path being one that can be opened for writing). *)
Theorem create_icon_square_png env size path w :
  size ∈ sizes → writable w path →
  im_mode (icon_image env size) = "RGB" ∧
  im_size (icon_image env size) = (size, size) ∧
  length (getdata (icon_image env size)) = Z.to_nat size ∧
  Forall (λ row, length row = Z.to_nat size) (getdata (icon_image env size)) ∧
  ∃ w', create_icon env size path w = (inr tt, w') ∧
        fs_dirs w' = fs_dirs w ∧
        fs_files w' =
          <[path := png_encode env "RGB" (size, size) (getdata (icon_image env size))]>
            (fs_files w).
Proof.
  intros Hin Hw.
  destruct (getdata_rows (icon_image env size)) as [Hrows Hcols].
  repeat split; [done..|].
  exists (icon_saved env size path w). split; [|done].
  apply create_icon_ok; [by apply sizes_ge_4|done].
Qed.

Lemma create_icon_square_png_witness :
  ∃ w', create_icon no_helvetica 72 "images/icons/icon-72x72.png" icons_world = (inr tt, w') ∧
        fs_files w' !! "images/icons/icon-72x72.png" = Some [Byte.x48; Byte.x48].
Proof.
  destruct (create_icon_square_png no_helvetica 72 "images/icons/icon-72x72.png" icons_world)
    as (_ & _ & _ & _ & w' & Hrun & _ & Hfiles).
  - by constructor.
  - apply (icons_world_writable 72). by constructor.
  - exists w'. split; [done|]. rewrite Hfiles. apply lookup_insert_eq.
Defined.

(** C2: [main] makes the directory, then calls [create_icon] once for each
    of the eight sizes, in the order of the list, with the path
    [images/icons/icon-{size}x{size}.png], then prints the summary with the
    count 8; a complete run leaves exactly these eight files written, under
    distinct names, and one status line per icon before the summary. *)
Theorem main_generates_eight_icons env :
  (∀ w, main env w =
     (os_makedirs "images/icons" true;;
      (create_icon env 72 "images/icons/icon-72x72.png";;
       create_icon env 96 "images/icons/icon-96x96.png";;
       create_icon env 128 "images/icons/icon-128x128.png";;
       create_icon env 144 "images/icons/icon-144x144.png";;
       create_icon env 152 "images/icons/icon-152x152.png";;
       create_icon env 192 "images/icons/icon-192x192.png";;
       create_icon env 384 "images/icons/icon-384x384.png";;
       create_icon env 512 "images/icons/icon-512x512.png";;
       mret tt);;
      print (String "010" "Successfully generated 8 PWA icons!")) w) ∧
  length (output_path <$> sizes) = 8%nat ∧
  NoDup (output_path <$> sizes) ∧
  (∀ w, main_ready w →
     main env w = (inr tt, main_final env w) ∧
     (∀ size, size ∈ sizes →
        fs_files (main_final env w) !! output_path size = Some (icon_bytes env size)) ∧
     (∀ p, p ∉ output_path <$> sizes →
        fs_files (main_final env w) !! p = fs_files w !! p) ∧
     stdout (main_final env w) =
       (stdout w ++
       [ "Created images/icons/icon-72x72.png (72x72)";
         "Created images/icons/icon-96x96.png (96x96)";
         "Created images/icons/icon-128x128.png (128x128)";
         "Created images/icons/icon-144x144.png (144x144)";
         "Created images/icons/icon-152x152.png (152x152)";
         "Created images/icons/icon-192x192.png (192x192)";
         "Created images/icons/icon-384x384.png (384x384)";
         "Created images/icons/icon-512x512.png (512x512)";
         String "010" "Successfully generated 8 PWA icons!" ])%list).
Proof.
  split; [reflexivity|]. split; [reflexivity|]. split; [apply output_paths_NoDup|].
  intros w Hready. split; [by apply main_ok|].
  split; [intros size; apply main_final_icon|].
  split; [intros p; apply main_final_other|]. reflexivity.
Qed.

Lemma main_generates_eight_icons_witness :
  main no_helvetica empty_world = (inr tt, main_final no_helvetica empty_world) ∧
  dom (fs_files (main_final no_helvetica empty_world)) = list_to_set (output_path <$> sizes).
Proof.
  destruct (main_generates_eight_icons no_helvetica) as (_ & _ & _ & Hrun).
  destruct (Hrun empty_world empty_world_ready) as (Hmain & Hicons & Hothers & _).
  split; [exact Hmain|].
  apply set_eq. intros p. rewrite elem_of_dom, elem_of_list_to_set. split.
  - intros Hsome. destruct (decide (p ∈ output_path <$> sizes)) as [|Hout]; [done|].
    rewrite (Hothers p Hout) in Hsome. unfold empty_world in Hsome. cbn [fs_files] in Hsome.
    rewrite lookup_empty in Hsome. by destruct Hsome.
  - intros Hin. apply list_elem_of_fmap in Hin as (size & -> & Hin).
    rewrite (Hicons size Hin). by eexists.
Defined.

(** C3, as the code has it: the output directory is made by [main], which
    calls [os.makedirs("images/icons", exist_ok=True)] once, before the loop;
    this makes [images/icons] (and [images]) where absent and succeeds where
    they are there, so that a second run overwrites the files without error.
    [create_icon] makes no directory, whatever the size and the path.  With a
    size [main] passes and a path that can be opened it writes or overwrites
    the file the path names; with a path that cannot be opened (its directory
    is missing, or the path names a directory) it never returns and leaves
    the world as it was, and with a size [main] passes what it raises is the
    error of the open, an [OSError] unless the path holds a NUL byte. *)
Theorem output_directory_made_by_main env :
  (∀ size path w, fs_dirs (create_icon env size path w).2 = fs_dirs w) ∧
  (∀ size path w target, size ∈ sizes → open_target w path = inr target →
     create_icon env size path w = (inr tt, icon_saved_at env size target path w) ∧
     fs_files (icon_saved_at env size target path w) !! target
       = Some (icon_bytes env size)) ∧
  (∀ size path w e, open_target w path = inl e →
     (create_icon env size path w).1 ≠ inr tt ∧
     (create_icon env size path w).2 = w ∧
     (size ∈ sizes → create_icon env size path w = (inl e, w)) ∧
     (has_nul path = false → is_OSError e = true)) ∧
  (∀ w, "images" ∉ dom (fs_files w) → "images/icons" ∉ dom (fs_files w) →
     os_makedirs icons_dir true w
     = (inr tt, mkWorld ({["images"; "images/icons"]} ∪ fs_dirs w) (fs_files w) (stdout w))) ∧
  (∀ w, main_ready w →
     main env w = (inr tt, main_final env w) ∧
     "images/icons" ∈ fs_dirs (main_final env w) ∧
     main env (main_final env w) = (inr tt, main_final env (main_final env w)) ∧
     fs_files (main_final env (main_final env w)) = fs_files (main_final env w)).
Proof.
  split; [apply create_icon_dirs|]. split; [|split; [|split]].
  - intros size path w target Hin Hopen.
    split; [apply create_icon_at; [by apply sizes_ge_4|done]|]. apply lookup_insert_eq.
  - intros size path w e Hopen.
    destruct (create_icon_unopened env size path w e Hopen) as [Hraise Hworld].
    split; [done|]. split; [done|]. split.
    + intros Hin. apply create_icon_refused; [by apply sizes_ge_4|done].
    + intros Hnul. by apply (open_target_OSError w path).
  - intros w. apply makedirs_icons_dir.
  - intros w Hready. split; [by apply main_ok|]. split; [|split].
    + unfold main_final. cbn [fs_dirs]. rewrite !elem_of_union, !elem_of_singleton. tauto.
    + by apply main_ok, main_ready_final.
    + apply main_final_files_idem.
Qed.

Lemma output_directory_made_by_main_witness :
  main no_helvetica empty_world = (inr tt, main_final no_helvetica empty_world) ∧
  "images/icons" ∈ fs_dirs (main_final no_helvetica empty_world) ∧
  create_icon no_helvetica 72 "./icon.png" empty_world
  = (inr tt, icon_saved_at no_helvetica 72 "icon.png" "./icon.png" empty_world) ∧
  create_icon no_helvetica 72 "images/icons/" icons_world = (inl IsADirectoryError, icons_world).
Proof.
  destruct (output_directory_made_by_main no_helvetica) as (_ & Hsave & Hfail & _ & Hmain).
  destruct (Hmain empty_world empty_world_ready) as (Hrun & Hdir & _).
  split; [exact Hrun|]. split; [exact Hdir|]. split.
  - apply Hsave; [by constructor|]. by vm_compute.
  - apply (Hfail 72 "images/icons/" icons_world IsADirectoryError); [by vm_compute|].
    by constructor.
Defined.

(** C3 as stated fails: called on a path whose directory does not exist,
    [create_icon] raises [FileNotFoundError]; the directory is still absent
    afterwards and no file has been written. *)
Lemma create_icon_makes_no_directory :
  os_path_dirname "out/icon-72x72.png" = "out" ∧
  ("out" ∉ fs_dirs empty_world) ∧
  (create_icon no_helvetica 72 "out/icon-72x72.png" empty_world).1 = inl FileNotFoundError ∧
  ("out" ∉ fs_dirs (create_icon no_helvetica 72 "out/icon-72x72.png" empty_world).2) ∧
  fs_files (create_icon no_helvetica 72 "out/icon-72x72.png" empty_world).2
    !! "out/icon-72x72.png" = None.
Proof.
  assert (create_icon no_helvetica 72 "out/icon-72x72.png" empty_world
          = (inl FileNotFoundError, empty_world)) as Hrun.
  { apply create_icon_refused; [lia|]. by vm_compute. }
  rewrite Hrun. cbn [fst snd]. unfold empty_world. cbn [fs_dirs fs_files].
  split; [reflexivity|]. split; [apply not_elem_of_empty|].
  split; [reflexivity|]. split; [apply not_elem_of_empty|apply lookup_empty].
Qed.

(** C4, as the code has it: for every size the border width is
    [max 2 (size // 40)], at least 2 and [size // 40] as soon as that exceeds
    2, and the rectangle handed to [draw.rectangle] has the corners
    [(width, width)] and [(size - width, size - width)].  Below size 4 the
    box is refused and the call raises [ValueError]; in every call that
    returns, and in every call [main] makes, the rectangle is the first thing
    drawn on the canvas that is saved.  From size 6 on every pixel of the
    outline lies between the two corners, and the columns at [width] and at
    [size - width] are painted, so that [width] columns stay free on the left
    and [width - 1] on the right; at the sizes 4 and 5 the outline is wider
    than its box and paints pixels outside the corners. *)
Theorem border_width_spec env size :
  2 ≤ border_width size ∧
  border_width size = Z.max 2 (size / 40) ∧
  (2 < size / 40 → border_width size = size / 40) ∧
  border_box size =
    ((border_width size, border_width size),
     (size - border_width size, size - border_width size)) ∧
  im_ops (icon_image env size) !! 0%nat
    = Some (Rectangle (border_box size) border_colour (border_width size)) ∧
  (size < 4 → ∀ path w, create_icon env size path w = (inl ValueError, w)) ∧
  (size ∈ sizes → 6 ≤ size ∧ reaches_save env size (icon_image env size)) ∧
  (∀ path w, (create_icon env size path w).1 = inr tt →
     4 ≤ size ∧
     ∃ target, fs_files (create_icon env size path w).2 !! target
               = Some (png_encode env "RGB" (size, size) (getdata (icon_image env size)))) ∧
  (6 ≤ size →
     (∀ px py, on_outline (border_box size) (border_width size) px py = true →
        border_width size ≤ px ≤ size - border_width size ∧
        border_width size ≤ py ≤ size - border_width size) ∧
     (∀ py, border_width size ≤ py ≤ size - border_width size →
        on_outline (border_box size) (border_width size) (border_width size) py = true ∧
        on_outline (border_box size) (border_width size) (size - border_width size) py
        = true)) ∧
  (size = 4 ∨ size = 5 →
     ∃ px py, on_outline (border_box size) (border_width size) px py = true ∧
              ¬ (border_width size ≤ px ≤ size - border_width size ∧
                 border_width size ≤ py ≤ size - border_width size)).
Proof.
  split; [apply border_width_ge_2|]. split; [done|].
  split; [unfold border_width; lia|]. split; [done|]. split; [done|].
  split; [intros Hsmall path w; by apply create_icon_too_small|].
  split; [|split; [|split]].
  - intros Hin. apply sizes_ge_4 in Hin as Hsize.
    split; [|by apply create_icon_draws]. clear Hsize. revert size Hin.
    apply sizes_cases; lia.
  - intros path w Hret.
    destruct (create_icon_returns env size path w Hret) as (Hsize & target & _ & ->).
    split; [done|]. exists target. apply lookup_insert_eq.
  - intros Hsize. split.
    + intros px py. by apply border_outline_inside.
    + intros py Hpy. apply border_outline_columns; [lia|done].
  - intros [->| ->].
    + exists 1, 2. split; [reflexivity|]. change (border_width 4) with 2. lia.
    + exists 2, 4. split; [reflexivity|]. change (border_width 5) with 2. lia.
Qed.

Lemma border_width_spec_witness :
  border_width 72 = 2 ∧ border_width 512 = 12 ∧
  im_ops (icon_image no_helvetica 512) !! 0%nat
    = Some (Rectangle ((12, 12), (500, 500)) border_colour 12) ∧
  (∀ px py, on_outline ((12, 12), (500, 500)) 12 px py = true →
     12 ≤ px ≤ 500 ∧ 12 ≤ py ≤ 500).
Proof.
  split; [reflexivity|]. split; [reflexivity|].
  destruct (border_width_spec no_helvetica 512)
    as (_ & _ & _ & _ & Hop & _ & _ & _ & Hinside & _).
  split; [exact Hop|]. destruct Hinside as [Hinside _]; [lia|]. exact Hinside.
Defined.

(** C4 as stated fails at size 4: the call returns, the border is drawn
    with the width 2 in the box from [(2, 2)] to [(2, 2)], and the outline
    paints the pixel [(1, 2)], one pixel from the left edge and outside the
    box. *)
Lemma border_spills_at_size_4 :
  1 ≤ 4 ∧ border_width 4 = 2 ∧
  create_icon no_helvetica 4 "icon.png" empty_world
  = (inr tt, icon_saved no_helvetica 4 "icon.png" empty_world) ∧
  im_ops (icon_image no_helvetica 4) !! 0%nat
    = Some (Rectangle ((2, 2), (2, 2)) border_colour 2) ∧
  on_outline ((2, 2), (2, 2)) 2 1 2 = true ∧
  paint 1 2 background (Rectangle ((2, 2), (2, 2)) border_colour 2) = border_colour ∧
  1 < border_width 4.
Proof.
  split; [lia|]. split; [reflexivity|]. split.
  { apply create_icon_ok; [lia|]. by vm_compute. }
  split; [reflexivity|]. split; [reflexivity|]. split; [reflexivity|].
  change (border_width 4) with 2. lia.
Qed.

(** C5: whatever the size and the measured bounding box, the foreground
    text is drawn at the horizontal coordinate [(size - text_width) // 2],
    the floor of half the free width: the space left of it and the space
    right of it differ by at most one pixel.  The text width is the measured
    [bbox[2] - bbox[0]], and this coordinate is the one of the last drawing
    call of [create_icon] (reached from size 4 on). *)
Theorem text_x_centred env size :
  (∀ bbox, text_x size bbox = (size - text_width bbox) / 2 ∧
           2 * text_x size bbox ≤ size - text_width bbox < 2 * text_x size bbox + 2 ∧
           0 ≤ (size - text_width bbox - text_x size bbox) - text_x size bbox ≤ 1) ∧
  (∀ bbox0 bbox1 bbox2 bbox3, text_width (bbox0, bbox1, bbox2, bbox3) = bbox2 - bbox0) ∧
  (4 ≤ size →
     reaches_save env size (icon_image env size) ∧
     last (im_ops (icon_image env size))
       = Some (Text (text_x size (ImageDraw_textbbox (0, 0) text (icon_font env size)),
                     text_y size (ImageDraw_textbbox (0, 0) text (icon_font env size)))
                 text white (icon_font env size))).
Proof.
  split; [|split].
  - intros bbox. unfold text_x. split; [done|]. Z.div_mod_to_equations. lia.
  - done.
  - intros Hsize. split; [by apply create_icon_draws|done].
Qed.

Lemma text_x_centred_witness :
  text_x 72 (ImageDraw_textbbox (0, 0) text (icon_font with_helvetica 72)) = 24 ∧
  last (im_ops (icon_image with_helvetica 72))
    = Some (Text (24, 18) "IM" white (block_font 4)).
Proof.
  destruct (text_x_centred with_helvetica 72) as (_ & _ & Hdraw).
  destruct Hdraw as [_ Hlast]; [lia|].
  split; [reflexivity|]. exact Hlast.
Defined.

(** C6: whatever exception the load of the scalable font (asked for at
    [size // 2]) raises, the handler takes the built-in font and the call
    goes on: the font step returns the built-in font without touching the
    world, the whole call behaves exactly as on a machine where the load had
    returned the built-in font, and where the path can be written the call
    succeeds and prints only its status line. *)
Theorem font_failure_recovered env size e :
  truetype_load env helvetica (font_size size) = inl e →
  font_size size = size / 2 ∧
  icon_font env size = default_font env ∧
  (∀ w, try_except (ImageFont_truetype env helvetica (font_size size))
          (λ _, ImageFont_load_default env) w
        = (inr (default_font env), w)) ∧
  (∀ path w, create_icon env size path w = create_icon (default_only env) size path w) ∧
  (∀ path w, 4 ≤ size → writable w path →
     create_icon env size path w = (inr tt, icon_saved env size path w) ∧
     stdout (icon_saved env size path w) = (stdout w ++ [created_line path size])%list).
Proof.
  intros Hload.
  assert (icon_font env size = default_font env) as Hfont.
  { unfold icon_font. by rewrite Hload. }
  split; [done|]. split; [done|]. split; [|split].
  - intros w. by rewrite font_step, Hfont.
  - intros path w. destruct (Z.lt_ge_cases size 4) as [Hsmall|Hsize].
    + by rewrite !create_icon_too_small.
    + rewrite !create_icon_draws by done.
      rewrite (icon_image_font env (default_only env) size) by done.
      unfold mbind, Py_bind.
      by rewrite (Image_save_encoder env (default_only env)).
  - intros path w Hsize Hw. split; [by apply create_icon_ok|done].
Qed.

Lemma font_failure_recovered_witness :
  create_icon no_helvetica 72 "images/icons/icon-72x72.png" icons_world
  = (inr tt, icon_saved no_helvetica 72 "images/icons/icon-72x72.png" icons_world) ∧
  icon_font no_helvetica 72 = block_font 2.
Proof.
  destruct (font_failure_recovered no_helvetica 72 OSError)
    as (_ & Hfont & _ & _ & Hrun); [reflexivity|].
  destruct (Hrun "images/icons/icon-72x72.png" icons_world) as [Hok _]; [lia| |].
  - apply (icons_world_writable 72). by constructor.
  - split; [exact Hok|exact Hfont].
Defined.

(** C7, as the code has it: a call with a size below 4 raises [ValueError]
    at the border, before any text is drawn.  Every call that returns, and
    every call [main] makes, saves the canvas on which the constant "IM" has
    been drawn exactly twice: first the shadow, moved by the shadow offset
    along both axes, in the shadow colour; then the foreground at the centred
    position, in white.  The foreground is painted after the shadow: a pixel
    its glyphs cover fully is white, whatever the shadow put there. *)
Theorem text_drawn_twice env size :
  (size < 4 → ∀ path w, create_icon env size path w = (inl ValueError, w)) ∧
  (size ∈ sizes → reaches_save env size (icon_image env size)) ∧
  (∀ path w, (create_icon env size path w).1 = inr tt →
     ∃ target, open_target w path = inr target ∧
       fs_files (create_icon env size path w).2 !! target
       = Some (png_encode env "RGB" (size, size) (getdata (icon_image env size)))) ∧
  List.filter is_text (im_ops (icon_image env size))
    = [ Text (shadow_xy env size) "IM" shadow_colour (icon_font env size);
        Text (text_xy env size) "IM" white (icon_font env size) ] ∧
  shadow_xy env size
    = ((text_xy env size).1 + shadow_offset size, (text_xy env size).2 + shadow_offset size) ∧
  getrgb "#1B5E20" = Some shadow_colour ∧ getrgb "white" = Some white ∧
  (∀ px py,
     font_getmask (icon_font env size) "IM"
       (px - (text_xy env size).1) (py - (text_xy env size).2) = 255 →
     getpixel (icon_image env size) px py = white).
Proof.
  split; [intros Hsmall path w; by apply create_icon_too_small|].
  split; [intros Hin; by apply create_icon_draws, sizes_ge_4|].
  split.
  { intros path w Hret.
    destruct (create_icon_returns env size path w Hret) as (_ & target & Hopen & ->).
    exists target. split; [done|]. apply lookup_insert_eq. }
  split; [done|]. split; [done|]. split; [done|]. split; [done|].
  intros px py Hmask. rewrite getpixel_icon. unfold text_xy in *. cbn [fst snd] in Hmask.
  cbn [paint]. unfold text. rewrite Hmask. apply blend_full_white.
Qed.

Lemma text_drawn_twice_witness :
  List.filter is_text (im_ops (icon_image with_helvetica 72))
    = [ Text (25, 19) "IM" shadow_colour (block_font 4);
        Text (24, 18) "IM" white (block_font 4) ] ∧
  getpixel (icon_image with_helvetica 72) 25 27 = white ∧
  create_icon with_helvetica 3 "icon.png" empty_world = (inl ValueError, empty_world).
Proof.
  destruct (text_drawn_twice with_helvetica 72) as (_ & _ & _ & Hops & _ & _ & _ & Hpx).
  destruct (text_drawn_twice with_helvetica 3) as (Hsmall & _).
  split; [exact Hops|]. split; [apply Hpx; reflexivity|]. apply Hsmall. lia.
Defined.

(** C7 as stated fails at size 3: the path can be opened, but the border
    box is refused, the call raises [ValueError] and nothing is written or
    printed; no text has been drawn. *)
Lemma no_text_below_size_4 :
  1 ≤ 3 ∧
  open_target empty_world "icon.png" = inr "icon.png" ∧
  box_ordered (border_box 3) = false ∧
  create_icon no_helvetica 3 "icon.png" empty_world = (inl ValueError, empty_world) ∧
  fs_files (create_icon no_helvetica 3 "icon.png" empty_world).2 = ∅.
Proof.
  split; [lia|]. split; [by vm_compute|]. split; [reflexivity|].
  rewrite create_icon_too_small by lia. by split.
Qed.

(** C8: two runs on machines where the font load turns out the same (same
    scalable font or same failure, same built-in font, same encoder) leave
    byte-identical files for every size of the fixed set, whatever else the
    two file systems held; the first run leaves the world ready for another
    run. *)
Theorem generation_deterministic env1 env2 w1 w2 :
  png_encode env1 = png_encode env2 →
  default_font env1 = default_font env2 →
  (∀ size, size ∈ sizes →
     truetype_load env1 helvetica (font_size size)
     = truetype_load env2 helvetica (font_size size)) →
  main_ready w1 → main_ready w2 →
  ∃ w1' w2',
    main env1 w1 = (inr tt, w1') ∧ main env2 w2 = (inr tt, w2') ∧
    main_ready w1' ∧
    ∀ size, size ∈ sizes →
      ∃ bytes, fs_files w1' !! output_path size = Some bytes ∧
               fs_files w2' !! output_path size = Some bytes.
Proof.
  intros Henc Hdefault Hload Hready1 Hready2.
  exists (main_final env1 w1), (main_final env2 w2).
  split; [by apply main_ok|]. split; [by apply main_ok|].
  split; [by apply main_ready_final|].
  intros size Hin. exists (icon_bytes env1 size).
  split; [by apply main_final_icon|].
  rewrite main_final_icon by done. f_equal. unfold icon_bytes.
  rewrite Henc. f_equal. f_equal. apply icon_image_font.
  unfold icon_font. by rewrite Hload, Hdefault.
Qed.

Lemma generation_deterministic_witness :
  ∃ w1 w2,
    main with_helvetica empty_world = (inr tt, w1) ∧
    main with_helvetica w1 = (inr tt, w2) ∧
    ∀ size, size ∈ sizes →
      ∃ bytes, fs_files w1 !! output_path size = Some bytes ∧
               fs_files w2 !! output_path size = Some bytes.
Proof.
  destruct (generation_deterministic with_helvetica with_helvetica empty_world empty_world)
    as (w1 & w1' & Hrun1 & _ & Hready1 & _);
    [reflexivity|reflexivity|reflexivity|apply empty_world_ready..|].
  destruct (generation_deterministic with_helvetica with_helvetica empty_world w1)
    as (w1'' & w2 & Hrun1' & Hrun2 & _ & Hsame);
    [reflexivity|reflexivity|reflexivity|apply empty_world_ready|exact Hready1|].
  exists w1, w2. split; [exact Hrun1|]. split; [exact Hrun2|].
  intros size Hin. destruct (Hsame size Hin) as (bytes & Hb1 & Hb2).
  exists bytes. split; [|exact Hb2].
  rewrite Hrun1 in Hrun1'. by inversion Hrun1'; subst.
Defined.

(** C9: for each of the eight sizes [main] passes, the first corner of the
    border rectangle is at or before the second in both coordinates; this is
    not so for every positive size: it fails for the sizes 1 to 3, and holds
    exactly from 4 on. *)
Theorem border_box_well_formed :
  (∀ size, size ∈ sizes →
     (border_box size).1.1 ≤ (border_box size).2.1 ∧
     (border_box size).1.2 ≤ (border_box size).2.2) ∧
  (∀ size, 1 ≤ size → size < 4 →
     ¬ ((border_box size).1.1 ≤ (border_box size).2.1) ∧
     ¬ ((border_box size).1.2 ≤ (border_box size).2.2)) ∧
  (∀ size, box_ordered (border_box size) = true ↔ 4 ≤ size) ∧
  (∀ size, size ∈ sizes → box_ordered (border_box size) = true).
Proof.
  split; [|split; [|split]].
  - intros size Hin. apply sizes_ge_4 in Hin.
    unfold border_box, border_width. cbn [fst snd]. Z.div_mod_to_equations. lia.
  - intros size Hpos Hsmall. unfold border_box, border_width. cbn [fst snd]. lia.
  - apply border_box_ordered.
  - intros size Hin. by apply border_box_ordered, sizes_ge_4.
Qed.

Lemma border_box_well_formed_witness :
  box_ordered (border_box 72) = true ∧ ¬ ((border_box 3).1.1 ≤ (border_box 3).2.1).
Proof.
  destruct border_box_well_formed as (_ & Hsmall & _ & Hsizes).
  split.
  - apply (Hsizes 72). by constructor.
  - apply (Hsmall 3); lia.
Defined.

(** C10: for every size from 1 on the shadow offset is [max 1 (size // 100)],
    so at least one pixel; the position the shadow is drawn at is therefore
    never the position of the foreground text, and these are the positions of
    the two text calls of [create_icon] (reached from size 4 on). *)
Theorem shadow_offset_spec env size :
  1 ≤ size →
  shadow_offset size = Z.max 1 (size / 100) ∧
  1 ≤ shadow_offset size ∧
  (∀ x y : Z, (x + shadow_offset size, y + shadow_offset size) ≠ (x, y)) ∧
  shadow_xy env size ≠ text_xy env size ∧
  (4 ≤ size →
     reaches_save env size (icon_image env size) ∧
     im_ops (icon_image env size) !! 1%nat
       = Some (Text (shadow_xy env size) text shadow_colour (icon_font env size)) ∧
     im_ops (icon_image env size) !! 2%nat
       = Some (Text (text_xy env size) text white (icon_font env size))).
Proof.
  intros Hsize.
  assert (1 ≤ shadow_offset size) as Hoff by (unfold shadow_offset; lia).
  split; [done|]. split; [done|]. split; [|split].
  - intros x y Heq. inversion Heq. lia.
  - unfold shadow_xy, text_xy. intros Heq. inversion Heq. lia.
  - intros Hbig. split; [by apply create_icon_draws|done].
Qed.

Lemma shadow_offset_spec_witness :
  shadow_offset 72 = 1 ∧ shadow_offset 512 = 5 ∧
  shadow_xy with_helvetica 512 ≠ text_xy with_helvetica 512.
Proof.
  split; [reflexivity|]. split; [reflexivity|].
  destruct (shadow_offset_spec with_helvetica 512) as (_ & _ & _ & Hne & _); [lia|].
  exact Hne.
Defined.

(** * Further properties of the script *)

(** ** What a call of [create_icon] can do *)


(** ** What a run of [main] can do *)

Lemma only_more_dirs_refl w : only_more_dirs w w.
Proof. by repeat split. Qed.

Lemma only_more_dirs_trans w1 w2 w3 :
  only_more_dirs w1 w2 → only_more_dirs w2 w3 → only_more_dirs w1 w3.
Proof.
  intros (Hf1 & Ho1 & Hd1) (Hf2 & Ho2 & Hd2). repeat split; [congruence..|].
  by transitivity (fs_dirs w2).
Qed.

Lemma os_mkdir_frame path w : only_more_dirs w (os_mkdir path w).2.
Proof.
  unfold os_mkdir. repeat case_match; try apply only_more_dirs_refl.
  repeat split. cbn [snd fs_dirs]. apply union_subseteq_r.
Qed.

Lemma makedirs_leaf_frame name exist_ok w :
  only_more_dirs w (makedirs_leaf name exist_ok w).2.
Proof.
  unfold makedirs_leaf, try_except.
  pose proof (os_mkdir_frame name w) as Hmk.
  destruct (os_mkdir name w) as [[e|[]] w1]; [|done].
  cbn [snd] in Hmk. destruct (is_OSError e); [|done].
  unfold mbind, Py_bind, os_path_isdir. by case_match.
Qed.

(** [os.makedirs] writes no file and prints nothing, whatever the name and
    however it ends; the directories that were there stay. *)
Lemma makedirs_rec_frame fuel name exist_ok w :
  only_more_dirs w (makedirs_rec fuel name exist_ok w).2.
Proof.
  revert name w. induction fuel as [|fuel IH]; intros name w.
  { apply only_more_dirs_refl. }
  rewrite makedirs_rec_unfold.
  destruct (os_path_split name) as [head tail].
  destruct (if nonempty tail then (head, tail) else os_path_split head) as [head' tail'].
  unfold mbind at 1, Py_bind at 1, os_path_exists at 1.
  destruct (nonempty head' && nonempty tail' && negb _); [|apply makedirs_leaf_frame].
  unfold mbind, Py_bind, try_except.
  pose proof (IH head' w) as Hrec.
  destruct (makedirs_rec fuel head' exist_ok w) as [[e|[]] w1]; cbn [snd] in Hrec.
  - destruct e; try done.
    unfold mret, Py_ret. case_match; [done|].
    eapply only_more_dirs_trans; [done|]. apply makedirs_leaf_frame.
  - case_match; [done|].
    eapply only_more_dirs_trans; [done|]. apply makedirs_leaf_frame.
Qed.




(** X3: [main] stops at the directory when a regular file is in the way.
    With a file (not a directory) at [images/icons] it raises
    [FileExistsError]; with a file at [images] and nothing at [images/icons]
    it raises [NotADirectoryError]: [exist_ok] forgives only a directory.  In
    both cases no icon is written and nothing is printed. *)
Theorem main_blocked_by_a_file env w :
  ("images/icons" ∉ fs_dirs w) →
  (("images/icons" ∈ dom (fs_files w)) →
     (main env w).1 = inl FileExistsError ∧
     fs_files (main env w).2 = fs_files w ∧ stdout (main env w).2 = stdout w) ∧
  (("images/icons" ∉ dom (fs_files w)) → ("images" ∈ dom (fs_files w)) →
     ("images" ∉ fs_dirs w) →
     main env w = (inl NotADirectoryError, w)).
Proof.
  intros Hnd.
  assert ("images/icons" ∈ dom (fs_files w) →
          os_makedirs icons_dir true w
          = (inl FileExistsError, (os_makedirs icons_dir true w).2)) as Hfile.
  { intros Hf. destruct w as [ds fs out]. cbn [fs_dirs fs_files] in *.
    unfold os_makedirs, icons_dir. cbn [String.length].
    rewrite makedirs_rec_unfold, split_icons_dir. cbn [nonempty andb].
    unfold mbind at 1 3, Py_bind at 1 3. rewrite !exists_images. cbn [fs_dirs fs_files].
    destruct (bool_decide ("images" ∈ ds) || bool_decide ("images" ∈ dom fs)) eqn:Hex;
      cbn [negb]; cbv iota.
    - by rewrite makedirs_leaf_icons_dir_file.
    - apply orb_false_iff in Hex as [Hd1 Hf1].
      apply bool_decide_eq_false in Hd1, Hf1.
      unfold mbind, Py_bind, try_except. rewrite makedirs_images by done.
      change (String.eqb "icons" ".") with false. cbv iota.
      rewrite makedirs_leaf_icons_dir_file; [done| |done].
      rewrite elem_of_union, elem_of_singleton. intros [Heq|?]; [discriminate Heq|done]. }
  assert ("images/icons" ∉ dom (fs_files w) → "images" ∈ dom (fs_files w) →
          "images" ∉ fs_dirs w →
          os_makedirs icons_dir true w = (inl NotADirectoryError, w)) as Hparent.
  { intros Hf Hf1 Hd1. destruct w as [ds fs out]. cbn [fs_dirs fs_files] in *.
    unfold os_makedirs, icons_dir. cbn [String.length].
    rewrite makedirs_rec_unfold, split_icons_dir. cbn [nonempty andb].
    unfold mbind at 1, Py_bind at 1. rewrite exists_images. cbn [fs_dirs fs_files].
    rewrite (bool_decide_eq_true_2 _ Hf1), orb_true_r. cbn [negb]. cbv iota.
    unfold makedirs_leaf, try_except. rewrite mkdir_icons_dir_blocked by done.
    cbn [is_OSError]. unfold mbind, Py_bind. rewrite isdir_icons_dir. cbn [fs_dirs].
    by rewrite (bool_decide_eq_false_2 _ Hnd). }
  pose proof (makedirs_rec_frame (S (String.length icons_dir)) icons_dir true w)
    as (Hfiles & Hout & _).
  fold (os_makedirs icons_dir true) in Hfiles, Hout.
  split.
  - intros Hf. unfold main. raises ltac:(by apply Hfile). by cbn [fst snd].
  - intros Hf Hf1 Hd1. unfold main. by raises ltac:(by apply Hparent).
Qed.

Lemma main_blocked_by_a_file_witness :
  (main no_helvetica blocked_world).1 = inl FileExistsError ∧
  fs_files (main no_helvetica blocked_world).2 = fs_files blocked_world.
Proof.
  destruct (main_blocked_by_a_file no_helvetica blocked_world) as [Hfile _].
  - apply not_elem_of_empty.
  - destruct Hfile as (Hres & Hfiles & _); [|by split].
    unfold blocked_world. cbn [fs_files]. rewrite dom_singleton_L.
    by apply elem_of_singleton.
Defined.

(** ** Where the text lands *)

(** X4: the bounding box of the text at the position [create_icon] draws it.
    Vertically it is centred: its top is at [(size - text_height) // 2], and
    the space below it is the space above it or one pixel more.  Horizontally
    the script does not take the left bearing [bbox[0]] off, as it does with
    [bbox[1]]: the box starts [bbox[0]] right of [(size - text_width) // 2],
    so the space right of it is the space left of it less twice [bbox[0]], or
    that plus one. *)
Theorem text_box_position size font bbox0 bbox1 bbox2 bbox3 :
  font_getbbox font text = (bbox0, bbox1, bbox2, bbox3) →
  ∃ left top right bottom,
    ImageDraw_textbbox
      (text_x size (ImageDraw_textbbox (0, 0) text font),
       text_y size (ImageDraw_textbbox (0, 0) text font)) text font
    = (left, top, right, bottom) ∧
    top = (size - (bbox3 - bbox1)) / 2 ∧
    bottom - top = bbox3 - bbox1 ∧
    0 ≤ (size - bottom) - top ≤ 1 ∧
    left = (size - (bbox2 - bbox0)) / 2 + bbox0 ∧
    right - left = bbox2 - bbox0 ∧
    0 ≤ (size - right) - left + 2 * bbox0 ≤ 1.
Proof.
  intros Hbbox. unfold ImageDraw_textbbox. rewrite Hbbox. cbn [fst snd].
  unfold text_x, text_y, text_width, text_height.
  eexists _, _, _, _. split; [reflexivity|].
  rewrite !Z.add_0_l. Z.div_mod_to_equations. lia.
Qed.

Lemma text_box_position_witness :
  ImageDraw_textbbox (text_xy with_helvetica 72) text (block_font 4) = (24, 26, 48, 46).
Proof.
  destruct (text_box_position 72 (block_font 4) 0 8 24 28)
    as (left & top & right & bottom & Hbox & Htop & Hheight & _ & Hleft & Hwidth & _);
    [reflexivity|].
  change (text_xy with_helvetica 72)
    with (text_x 72 (ImageDraw_textbbox (0, 0) text (block_font 4)),
          text_y 72 (ImageDraw_textbbox (0, 0) text (block_font 4))).
  rewrite Hbox. change ((72 - (28 - 8)) / 2) with 26 in Htop.
  change ((72 - (24 - 0)) / 2 + 0) with 24 in Hleft.
  f_equal; [f_equal; [f_equal|]|]; lia.
Defined.

(** ** How the border and the shadow scale *)

(** X5: the minimum of 2 is the border width exactly below size 120, and the
    minimum of 1 the shadow offset exactly below size 200; from there on the
    width is the fortieth of the size, rounded down, and the offset the
    hundredth.  Both grow with the size, and the shadow offset is always
    smaller than the border width. *)
Theorem border_and_shadow_scale size :
  (border_width size = 2 ↔ size < 120) ∧
  (shadow_offset size = 1 ↔ size < 200) ∧
  (120 ≤ size → 40 * border_width size ≤ size < 40 * border_width size + 40) ∧
  (200 ≤ size → 100 * shadow_offset size ≤ size < 100 * shadow_offset size + 100) ∧
  (∀ size', size ≤ size' →
     border_width size ≤ border_width size' ∧ shadow_offset size ≤ shadow_offset size') ∧
  shadow_offset size < border_width size.
Proof.
  unfold border_width, shadow_offset.
  split; [split; intros; Z.div_mod_to_equations; lia|].
  split; [split; intros; Z.div_mod_to_equations; lia|].
  split; [intros; Z.div_mod_to_equations; lia|].
  split; [intros; Z.div_mod_to_equations; lia|].
  split; [intros; Z.div_mod_to_equations; lia|].
  Z.div_mod_to_equations. lia.
Qed.

Lemma border_and_shadow_scale_witness :
  border_width 119 = 2 ∧ border_width 120 = 3 ∧
  shadow_offset 199 = 1 ∧ shadow_offset 200 = 2 ∧
  40 * border_width 512 ≤ 512 < 40 * border_width 512 + 40.
Proof.
  destruct (border_and_shadow_scale 512) as (_ & _ & Hborder & _).
  repeat split; try reflexivity; apply Hborder; lia.
Defined.

(** ** The names of the files *)

Lemma string_app_length (s1 s2 : string) :
  String.length (s1 +:+ s2) = (String.length s1 + String.length s2)%nat.
Proof.
  induction s1 as [|c s1 IH]; [done|].
  change (S (String.length (s1 +:+ s2)) = S (String.length s1 + String.length s2)).
  by rewrite IH.
Qed.

Lemma string_app_inj_length (a b c d : string) :
  String.length a = String.length c → a +:+ b = c +:+ d → a = c ∧ b = d.
Proof.
  revert c. induction a as [|x a IH]; intros [|y c] Hlen Heq; try done.
  change (String x (a +:+ b) = String y (c +:+ d)) in Heq.
  cbn [String.length] in Hlen. injection Heq as -> Heq.
  destruct (IH c) as [-> ->]; [lia|done|done].
Qed.

Lemma output_path_eq size1 size2 :
  output_path size1 = output_path size2 → size1 = size2.
Proof.
  unfold output_path, icons_dir. intros Heq.
  apply (String.app_inj "images/icons"), (String.app_inj "/icon-") in Heq.
  assert (String.length (pretty size1) = String.length (pretty size2)) as Hlen.
  { apply (f_equal String.length) in Heq.
    rewrite !string_app_length in Heq. cbn [String.length] in Heq. lia. }
  destruct (string_app_inj_length _ _ _ _ Hlen Heq) as [Hpretty _].
  by apply pretty_Z_inj in Hpretty.
Qed.

(** X6: the path of an icon names its size: two different sizes, whatever
    integers they are, never get the same path, so a list of distinct sizes
    gives distinct paths and no icon of a run can overwrite another. *)
Theorem output_path_inj :
  (∀ size1 size2, output_path size1 = output_path size2 → size1 = size2) ∧
  (∀ l : list Z, NoDup l → NoDup (output_path <$> l)).
Proof.
  split; [apply output_path_eq|].
  intros l Hl.
  assert (Inj (=) (=) output_path) as Hinj by (intros size1 size2; apply output_path_eq).
  by apply (NoDup_fmap_2 output_path).
Qed.

Lemma output_path_inj_witness :
  output_path 72 = "images/icons/icon-72x72.png" ∧ output_path 72 ≠ output_path 96.
Proof.
  split; [reflexivity|]. intros Heq.
  pose proof (proj1 output_path_inj 72 96 Heq) as Habs. discriminate Habs.
Defined.

(** ** The border and the canvas *)

(** X7: from size 8 on the border leaves the middle of the canvas free: the
    pixel at [(size // 2, size // 2)] is not on the outline, so before the
    text is drawn it has the background colour.  For the sizes 4 to 7 the
    outline fills its whole box: every pixel between the corners is
    painted. *)
Theorem border_leaves_the_middle size :
  4 ≤ size →
  (8 ≤ size →
     on_outline (border_box size) (border_width size) (size / 2) (size / 2) = false ∧
     paint (size / 2) (size / 2) background
       (Rectangle (border_box size) border_colour (border_width size)) = background) ∧
  (size < 8 →
     ∀ px py, border_width size ≤ px ≤ size - border_width size →
              border_width size ≤ py ≤ size - border_width size →
              on_outline (border_box size) (border_width size) px py = true).
Proof.
  intros Hsize. pose proof (border_width_ge_2 size) as Hw.
  split.
  - intros Hbig.
    assert (on_outline (border_box size) (border_width size) (size / 2) (size / 2) = false)
      as Hout.
    { unfold on_outline, border_box. apply not_true_is_false.
      rewrite !orb_true_iff, !andb_true_iff, !orb_true_iff, !andb_true_iff,
      !Z.leb_le, !Z.ltb_lt.
      unfold border_width in *. Z.div_mod_to_equations. lia. }
    split; [done|]. cbn [paint]. by rewrite Hout.
  - intros Hsmall px py Hpx Hpy. unfold on_outline, border_box.
    rewrite !orb_true_iff, !andb_true_iff, !orb_true_iff, !andb_true_iff,
      !Z.leb_le, !Z.ltb_lt.
    unfold border_width in *. Z.div_mod_to_equations. lia.
Qed.

Lemma border_leaves_the_middle_witness :
  on_outline (border_box 72) (border_width 72) 36 36 = false ∧
  on_outline (border_box 6) (border_width 6) 3 3 = true.
Proof.
  destruct (border_leaves_the_middle 72) as [Hbig _]; [lia|].
  destruct (border_leaves_the_middle 6) as [_ Hsmall]; [lia|].
  split.
  - destruct Hbig as [Hout _]; [lia|]. exact Hout.
  - apply Hsmall; [lia| |]; change (border_width 6) with 2; lia.
Defined.

(** ** What of the machine a call looks at *)

(** X8: a call of [create_icon] looks at the fonts of the machine only
    through the load of Helvetica at [size // 2]: two machines that answer
    this one load alike, and have the same built-in font and encoder, give
    the same call in every respect.  When the load succeeds the built-in font
    is not looked at either: the text is measured and drawn with the loaded
    font, and machines that differ only in their built-in font give the same
    call. *)
Theorem create_icon_font_dependence env1 env2 size :
  png_encode env1 = png_encode env2 →
  truetype_load env1 helvetica (font_size size)
  = truetype_load env2 helvetica (font_size size) →
  (default_font env1 = default_font env2 →
     ∀ path w, create_icon env1 size path w = create_icon env2 size path w) ∧
  (∀ font, truetype_load env1 helvetica (font_size size) = inr font →
     icon_font env1 size = font ∧
     ∀ path w, create_icon env1 size path w = create_icon env2 size path w).
Proof.
  intros Henc Hload.
  assert (icon_font env1 size = icon_font env2 size →
          ∀ path w, create_icon env1 size path w = create_icon env2 size path w) as Hsame.
  { intros Hfont path w. destruct (Z.lt_ge_cases size 4) as [Hsmall|Hsize].
    - by rewrite !create_icon_too_small.
    - rewrite !create_icon_draws by done.
      rewrite (icon_image_font env1 env2 size) by done.
      unfold mbind, Py_bind. by rewrite (Image_save_encoder env1 env2). }
  split.
  - intros Hdefault. apply Hsame. unfold icon_font. by rewrite Hload, Hdefault.
  - intros font Hfont. split; [unfold icon_font; by rewrite Hfont|].
    apply Hsame. unfold icon_font. by rewrite <- Hload, Hfont.
Qed.

Lemma create_icon_font_dependence_witness :
  icon_font with_helvetica 72 = block_font 4 ∧
  create_icon with_helvetica 72 "icon.png" empty_world
  = create_icon (mkEnv (truetype_load with_helvetica) (block_font 9) size_encoder)
      72 "icon.png" empty_world.
Proof.
  destruct (create_icon_font_dependence with_helvetica
              (mkEnv (truetype_load with_helvetica) (block_font 9) size_encoder) 72)
    as [_ Hloaded]; [reflexivity..|].
  destruct (Hloaded (block_font 4)) as [Hfont Hsame]; [reflexivity|].
  split; [exact Hfont|apply Hsame].
Defined.
